(** * ONNX graph helpers of [cookbook/include/utils_onnx.py]

    A shallow embedding of [add_node], [mark_graph_output], [find_son_node]
    and [build_mnist_network_onnx], together with the part of the
    onnx_graphsurgeon object model that these functions touch.

    Python objects that are shared and mutated (tensors) live in a store and
    are passed around by reference; nodes are never mutated by the code under
    study and are kept as values.  Every function is a computation in a
    state-and-exception monad over that store. *)

From stdpp Require Import base list strings pretty.
From Stdlib Require Import ZArith Lia Ascii.

Open Scope string_scope.
Open Scope list_scope.
Open Scope Z_scope.

(** ** Python values *)

(** The numpy element types that occur in the file.  [np.dtype(np.float32)]
    and [np.float32] compare equal in numpy and are both [float32] here. *)
Inductive dtype := float32 | int32 | int64.

(** Shapes and attribute values: integers, strings and (nested) lists. *)
#[local] Set Warnings "-register-all".
Inductive pyval :=
| PyInt (z : Z)
| PyStr (s : string)
| PyList (l : list pyval).

(** [str(n)] of a Python [int]. *)
Definition str (n : Z) : string := pretty n.

(** [len(l)] *)
Definition len {A} (l : list A) : Z := Z.of_nat (length l).

(** ** The onnx_graphsurgeon object model *)

(** Tensor objects are referred to by their position in the store. *)
Abbreviation tref := nat (only parsing).

Inductive tensor_kind := KVariable | KConstant.

Record GsNode := mkNode {
  n_op : string;
  n_name : string;
  n_attrs : list (string * pyval);
  n_inputs : list tref;
  n_outputs : list tref
}.

(** [t_inputs] are the producers, [t_outputs] the consumers of a tensor. *)
Record GsTensor := mkTensor {
  t_kind : tensor_kind;
  t_name : string;
  t_dtype : dtype;
  t_shape : pyval;
  t_inputs : list GsNode;
  t_outputs : list GsNode
}.

Record Graph := mkGraph {
  nodes : list GsNode;
  inputs : list tref;
  outputs : list tref
}.

(** The tensor store and the one graph under construction. *)
Record World := mkWorld {
  tensors : list GsTensor;
  graph : Graph
}.

Definition empty_world : World := mkWorld [] (mkGraph [] [] []).

(** ** Computations that mutate the world and may raise *)

Inductive exn :=
| AssertionError
| IndexError
| AttributeError
| TypeError
| GraphCycle.

Inductive outcome (A : Type) :=
| Ret (a : A)
| Raise (e : exn).
Arguments Ret {A} a.
Arguments Raise {A} e.

Definition M (A : Type) : Type := World -> outcome A * World.

Definition ret {A} (a : A) : M A := fun w => (Ret a, w).
Definition raise {A} (e : exn) : M A := fun w => (Raise e, w).
Definition bind {A B} (m : M A) (k : A -> M B) : M B :=
  fun w => match m w with
           | (Ret a, w') => k a w'
           | (Raise e, w') => (Raise e, w')
           end.

Notation "x <- m ;; k" := (bind m (fun x => k))
  (at level 100, m at next level, right associativity).
Notation "m ;;; k" := (bind m (fun _ => k))
  (at level 100, right associativity).

Definition assert (b : bool) : M unit :=
  if b then ret tt else raise AssertionError.

Definition get_world : M World := fun w => (Ret w, w).
Definition set_graph (g : Graph) : M unit :=
  fun w => (Ret tt, mkWorld (tensors w) g).

(** [l[i]] with Python's negative indices and [IndexError]. *)
Definition py_index {A} (l : list A) (i : Z) : M A :=
  let j := if i <? 0 then len l + i else i in
  if j <? 0 then raise IndexError
  else match l !! Z.to_nat j with
       | Some a => ret a
       | None => raise IndexError
       end.

(** ** Library constructors *)

(** [gs.Variable(name, dtype, shape)]: a fresh tensor object. *)
Definition gs_Variable (name : string) (dt : dtype) (shape : pyval) : M tref :=
  fun w =>
    (Ret (length (tensors w)),
     mkWorld (tensors w ++ [mkTensor KVariable name dt shape [] []]) (graph w)).

(** [gs.Constant(name, values)]: a fresh tensor object bound to data; only
    the element type and the shape of the data are kept. *)
Definition gs_Constant (name : string) (dt : dtype) (shape : pyval) : M tref :=
  fun w =>
    (Ret (length (tensors w)),
     mkWorld (tensors w ++ [mkTensor KConstant name dt shape [] []]) (graph w)).

Definition add_consumer (n : GsNode) (t : GsTensor) : GsTensor :=
  mkTensor (t_kind t) (t_name t) (t_dtype t) (t_shape t)
           (t_inputs t) (t_outputs t ++ [n]).
Definition add_producer (n : GsNode) (t : GsTensor) : GsTensor :=
  mkTensor (t_kind t) (t_name t) (t_dtype t) (t_shape t)
           (t_inputs t ++ [n]) (t_outputs t).

(** [gs.Node(op, name, inputs=.., outputs=.., attrs=..)]: the node copies
    both lists and registers itself as a consumer of every input and as a
    producer of every output. *)
Definition gs_Node (op name : string) (ins outs : list tref)
           (attrs : list (string * pyval)) : M GsNode :=
  fun w =>
    let n := mkNode op name attrs ins outs in
    let ts1 := foldl (fun ts t => alter (add_consumer n) t ts) (tensors w) ins in
    let ts2 := foldl (fun ts t => alter (add_producer n) t ts) ts1 outs in
    (Ret n, mkWorld ts2 (graph w)).

(** [graph.nodes.append(node)] *)
Definition graph_nodes_append (n : GsNode) : M unit :=
  fun w => let g := graph w in
           (Ret tt, mkWorld (tensors w) (mkGraph (nodes g ++ [n]) (inputs g) (outputs g))).

(** ** [add_node] *)

(** [datatype_list] is either one dtype or a Python list of dtypes. *)
Inductive dtype_arg :=
| DtOne (d : dtype)
| DtList (l : list dtype).

(** What [add_node] hands back as its first component: one tensor, or a list
    of tensors. *)
Inductive node_result :=
| OneOutput (t : tref)
| ManyOutputs (l : list tref).

Definition result_tensors (r : node_result) : list tref :=
  match r with OneOutput t => [t] | ManyOutputs l => l end.

Definition node_name (prefix : string) (number : Z) (node_type : string) : string :=
  prefix +:+ "-N-" +:+ str number +:+ "-" +:+ node_type.

Definition tensor_name (prefix : string) (number : Z) (node_type : string)
           (suffix : string) (i : Z) : string :=
  let tensor_name :=
    prefix +:+ "-V-" +:+ str number +:+ "-" +:+ node_type +:+ "-" +:+ str i in
  if 0 <? Z.of_nat (String.length suffix)
  then tensor_name +:+ ("-" +:+ suffix)
  else tensor_name.

(** The body of [for i in range(n_output)], for the indices in [idx]. *)
Fixpoint output_loop (prefix : string) (number : Z) (node_type suffix : string)
         (datatype_list : list dtype) (shape_list : list pyval)
         (idx : list nat) (output_list : list tref) : M (list tref) :=
  match idx with
  | [] => ret output_list
  | i :: rest =>
      let name := tensor_name prefix number node_type suffix (Z.of_nat i) in
      d <- py_index datatype_list (Z.of_nat i) ;;
      s <- py_index shape_list (Z.of_nat i) ;;
      tensor <- gs_Variable name d s ;;
      output_loop prefix number node_type suffix datatype_list shape_list
                  rest (output_list ++ [tensor])
  end.

Definition add_node (node_type : string) (input_list : list tref)
           (attribution : list (string * pyval))
           (datatype_list : dtype_arg) (shape_list : list pyval)
           (prefix suffix : string) (number : Z) : M (node_result * Z) :=
  lists <-
     match datatype_list with
     | DtList l =>
         assert (len l =? len shape_list) ;;;
         ret (l, shape_list)
     | DtOne d => ret ([d], [PyList shape_list])
     end ;;
  let '(datatype_list, shape_list) := lists in
  let node_name := node_name prefix number node_type in
  let n_output := length datatype_list in
  output_list <- output_loop prefix number node_type suffix
                             datatype_list shape_list (seq 0 n_output) [] ;;
  node <- gs_Node node_type node_name input_list output_list attribution ;;
  graph_nodes_append node ;;;
  match output_list with
  | [t] => ret (OneOutput t, number + 1)
  | _ => ret (ManyOutputs output_list, number + 1)
  end.

(** ** Library graph passes *)

(** [graph.cleanup().toposort()] calls two methods of the onnx_graphsurgeon
    library, which is not part of the sources.  They are modelled below from
    the glossary of the specification.  The cleanup also keeps the links
    between nodes and tensors in step with what it removes; the sort only
    reorders the node list. *)

Definition feeds (used : list tref) (n : GsNode) : bool :=
  existsb (fun t => bool_decide (t ∈ used)) (n_outputs n).

(** Tensors reachable backwards from [used]; one round per unit of fuel.
    Every round that is not yet at the fixed point reaches a new node, so
    [length ns] rounds are enough. *)
Fixpoint used_tensors (fuel : nat) (ns : list GsNode) (used : list tref) : list tref :=
  match fuel with
  | O => used
  | S fuel' =>
      used_tensors fuel' ns (used ++ flat_map n_inputs (List.filter (feeds used) ns))
  end.

(** A declared input of the graph has no producer: the cleanup first clears
    the producer list of every declared input, which takes that tensor out of
    the outputs of the nodes that produced it. *)
Definition strip_outputs (ins : list tref) (n : GsNode) : GsNode :=
  mkNode (n_op n) (n_name n) (n_attrs n) (n_inputs n)
         (List.filter (fun t => negb (bool_decide (t ∈ ins))) (n_outputs n)).

(** The tensors that the declared outputs depend on. *)
Definition used_by (g : Graph) : list tref :=
  let ns := strip_outputs (inputs g) <$> nodes g in
  used_tensors (length ns) ns (outputs g).

(** Modelled from the spec: [Graph.cleanup] of onnx_graphsurgeon is missing
    from the sources; it is "removing nodes unreachable from declared
    outputs".  The nodes that are kept stay in their order. *)
Definition cleanup (g : Graph) : Graph :=
  mkGraph (List.filter (feeds (used_by g)) (strip_outputs (inputs g) <$> nodes g))
          (inputs g) (outputs g).

(** What the cleanup does to the tensors: a removed node has its inputs and
    outputs cleared, so it leaves the consumer and producer lists of the
    tensors; the declared inputs lose their producers.  Names, element types
    and shapes are not touched. *)
Definition cleanup_links (g : Graph) (ts : list GsTensor) : list GsTensor :=
  let kept l := List.filter (feeds (used_by g)) (strip_outputs (inputs g) <$> l) in
  imap (fun t T =>
          mkTensor (t_kind T) (t_name T) (t_dtype T) (t_shape T)
                   (if bool_decide (t ∈ inputs g) then [] else kept (t_inputs T))
                   (kept (t_outputs T))) ts.

Definition producers (ns : list GsNode) (n : GsNode) : list GsNode :=
  List.filter (fun m => existsb (fun t => bool_decide (t ∈ n_outputs m)) (n_inputs n)) ns.

(** The level of a node is one more than the highest level among the nodes
    producing its inputs, and 0 without such nodes.  A dependency chain
    longer than the node list repeats a node, so running out of fuel means a
    cycle. *)
Fixpoint level (fuel : nat) (ns : list GsNode) (n : GsNode) : option nat :=
  match fuel with
  | O => None
  | S fuel' =>
      match mapM (level fuel' ns) (producers ns n) with
      | Some ls => Some (foldr (fun l acc => Nat.max (S l) acc) 0%nat ls)
      | None => None
      end
  end.

Fixpoint insert_by_level (x : nat * GsNode) (l : list (nat * GsNode)) :
  list (nat * GsNode) :=
  match l with
  | [] => [x]
  | y :: l' =>
      if (fst x <=? fst y)%nat then x :: y :: l' else y :: insert_by_level x l'
  end.

(** Modelled from the spec: [Graph.toposort] of onnx_graphsurgeon is missing
    from the sources; it is "reordering a graph's node list into dependency
    order".  Nodes of the same level keep their order, and a cycle, for which
    no such order exists, is an error ([None]). *)
Definition toposort (ns : list GsNode) : option (list GsNode) :=
  match mapM (fun n => match level (S (length ns)) ns n with
                       | Some l => Some (l, n)
                       | None => None
                       end) ns with
  | Some keyed => Some (map snd (foldr insert_by_level [] keyed))
  | None => None
  end.

Definition graph_cleanup : M unit :=
  fun w => (Ret tt, mkWorld (cleanup_links (graph w) (tensors w)) (cleanup (graph w))).

Definition graph_toposort : M unit :=
  fun w =>
    let g := graph w in
    match toposort (nodes g) with
    | Some ns => (Ret tt, mkWorld (tensors w) (mkGraph ns (inputs g) (outputs g)))
    | None => (Raise GraphCycle, w)
    end.

(** ** [mark_graph_output] *)

(** [graph.outputs = l] and [graph.inputs = l] *)
Definition set_graph_outputs (l : list tref) : M unit :=
  fun w => let g := graph w in
           (Ret tt, mkWorld (tensors w) (mkGraph (nodes g) (inputs g) l)).
Definition set_graph_inputs (l : list tref) : M unit :=
  fun w => let g := graph w in
           (Ret tt, mkWorld (tensors w) (mkGraph (nodes g) l (outputs g))).

(** [graph.outputs.append(t)] *)
Definition graph_outputs_append (t : tref) : M unit :=
  fun w => let g := graph w in
           (Ret tt, mkWorld (tensors w) (mkGraph (nodes g) (inputs g) (outputs g ++ [t]))).

Definition with_dtype (d : dtype) (t : GsTensor) : GsTensor :=
  mkTensor (t_kind t) (t_name t) d (t_shape t) (t_inputs t) (t_outputs t).

(** Whether [t] is a [gs.Constant]. *)
Definition is_constant (w : World) (t : tref) : bool :=
  match tensors w !! t with
  | Some T => match t_kind T with KConstant => true | KVariable => false end
  | None => false
  end.

(** [t.dtype = d] on the shared tensor object.  The element type of a
    [gs.Constant] is a read-only property of its data: assigning to it
    raises [AttributeError]. *)
Definition set_dtype (t : tref) (d : dtype) : M unit :=
  fun w =>
    if is_constant w t then (Raise AttributeError, w)
    else (Ret tt, mkWorld (alter (with_dtype d) t (tensors w)) (graph w)).

(** [range(n)] *)
Definition range (n : nat) : list Z := Z.of_nat <$> seq 0 n.

(** [for index in lMarkOutput: ...]; the [print] is not modelled. *)
Fixpoint mark_output_loop (node : GsNode) (lMarkOutput : list Z) : M unit :=
  match lMarkOutput with
  | [] => ret tt
  | index :: rest =>
      t <- py_index (n_outputs node) index ;;
      graph_outputs_append t ;;;
      t' <- py_index (n_outputs node) index ;;
      set_dtype t' float32 ;;;
      mark_output_loop node rest
  end.

(** [for index in lMarkInput: ...] *)
Fixpoint mark_input_loop (node : GsNode) (lMarkInput : list Z) : M unit :=
  match lMarkInput with
  | [] => ret tt
  | index :: rest =>
      t <- py_index (n_inputs node) index ;;
      graph_outputs_append t ;;;
      mark_input_loop node rest
  end.

Definition is_None {A} (o : option A) : bool :=
  match o with None => true | Some _ => false end.

(** [for node in graph.nodes: ...].  The local variables [lMarkOutput] and
    [lMarkInput] are rebound inside the loop and keep their new value for the
    following iterations. *)
Fixpoint mark_loop (lNode : list string) (bMarkOutput bMarkInput : bool)
         (ns : list GsNode) (lMarkOutput lMarkInput : option (list Z)) : M unit :=
  match ns with
  | [] => ret tt
  | node :: rest =>
      if bool_decide (n_name node ∈ lNode) then
        lMarkOutput <-
          (if bMarkOutput then
             let l := if is_None lMarkOutput || (1 <? len lNode)
                      then range (length (n_outputs node))
                      else default [] lMarkOutput in
             mark_output_loop node l ;;; ret (Some l)
           else ret lMarkOutput) ;;
        lMarkInput <-
          (if bMarkInput then
             let l := if is_None lMarkInput || (1 <? len lNode)
                      then range (length (n_inputs node))
                      else default [] lMarkInput in
             mark_input_loop node l ;;; ret (Some l)
           else ret lMarkInput) ;;
        mark_loop lNode bMarkOutput bMarkInput rest lMarkOutput lMarkInput
      else mark_loop lNode bMarkOutput bMarkInput rest lMarkOutput lMarkInput
  end.

Definition mark_graph_output (lNode : list string)
           (bMarkOutput bMarkInput : bool)
           (lMarkOutput lMarkInput : option (list Z))
           (bRemoveOldOutput : bool) : M Z :=
  (if bRemoveOldOutput then set_graph_outputs [] else ret tt) ;;;
  w <- get_world ;;
  mark_loop lNode bMarkOutput bMarkInput (nodes (graph w)) lMarkOutput lMarkInput ;;;
  graph_cleanup ;;;
  graph_toposort ;;;
  ret (len lNode).

(** ** [find_son_node] *)

(** [for subNode in ...: if condition(subNode): return subNode]; falling off
    the end of the function returns [None]. *)
Fixpoint son_loop (condition : GsNode -> bool) (subNodes : list GsNode) :
  option GsNode :=
  match subNodes with
  | [] => None
  | subNode :: rest =>
      if condition subNode then Some subNode else son_loop condition rest
  end.

(** [condition] may look at the world but does not change it. *)
Definition find_son_node (tensor : tref) (condition : World -> GsNode -> bool) :
  M (option GsNode) :=
  fun w =>
    match tensors w !! tensor with
    | Some t => (Ret (son_loop (condition w) (t_outputs t)), w)
    | None => (Raise AttributeError, w)
    end.

(** ** [build_mnist_network_onnx] *)

(** [tensor, n = add_node(...)] followed by a use of [tensor] as one tensor. *)
Definition as_tensor (r : node_result) : M tref :=
  match r with
  | OneOutput t => ret t
  | ManyOutputs _ => raise TypeError
  end.

Definition ints (l : list Z) : pyval := PyList (map PyInt l).
Definition B : pyval := PyStr "B".

(** The random weights of the constants are not kept; exporting and saving
    the finished graph is not modelled. *)
Definition build_mnist_network_onnx : M unit :=
  set_graph (mkGraph [] [] []) ;;;
  tensorX <- gs_Variable "tensorX" float32 (PyList [B; PyInt 1; PyInt 28; PyInt 28]) ;;
  constant32x1 <- gs_Constant "constant32x1x5x5" float32 (ints [32; 1; 5; 5]) ;;
  constant32 <- gs_Constant "constant32" float32 (ints [32]) ;;
  constant64x32 <- gs_Constant "constant64x32x5x5" float32 (ints [64; 32; 5; 5]) ;;
  constant64 <- gs_Constant "constant64" float32 (ints [64]) ;;
  constantM1Comma3136 <- gs_Constant "constantM1Comma3136" int64 (ints [2]) ;;
  constant3136x1024 <- gs_Constant "constant3136x1024" float32 (ints [3136; 1024]) ;;
  constant1024 <- gs_Constant "constant1024" float32 (ints [1024]) ;;
  constant1024x10 <- gs_Constant "constant1024x10" float32 (ints [1024; 10]) ;;
  constant10 <- gs_Constant "constant10" float32 (ints [10]) ;;
  let n := 0 in
  let scope_name := "MNIST" in
  r <- add_node "Conv" [tensorX; constant32x1; constant32]
         [("kernel_shape", ints [5; 5]); ("pads", ints [2; 2; 2; 2])]
         (DtOne float32) [B; PyInt 32; PyInt 28; PyInt 28] scope_name "" n ;;
  let '(tensor1, n) := r in tensor1 <- as_tensor tensor1 ;;
  r <- add_node "Relu" [tensor1] []
         (DtOne float32) [B; PyInt 32; PyInt 28; PyInt 28] scope_name "" n ;;
  let '(tensor2, n) := r in tensor2 <- as_tensor tensor2 ;;
  r <- add_node "MaxPool" [tensor2]
         [("kernel_shape", ints [2; 2]); ("pads", ints [0; 0; 0; 0]); ("strides", ints [2; 2])]
         (DtOne float32) [B; PyInt 32; PyInt 14; PyInt 14] scope_name "" n ;;
  let '(tensor3, n) := r in tensor3 <- as_tensor tensor3 ;;
  r <- add_node "Conv" [tensor3; constant64x32; constant64]
         [("kernel_shape", ints [5; 5]); ("pads", ints [2; 2; 2; 2])]
         (DtOne float32) [B; PyInt 64; PyInt 14; PyInt 14] scope_name "" n ;;
  let '(tensor4, n) := r in tensor4 <- as_tensor tensor4 ;;
  r <- add_node "Relu" [tensor4] []
         (DtOne float32) [B; PyInt 64; PyInt 14; PyInt 14] scope_name "" n ;;
  let '(tensor5, n) := r in tensor5 <- as_tensor tensor5 ;;
  r <- add_node "MaxPool" [tensor5]
         [("kernel_shape", ints [2; 2]); ("pads", ints [0; 0; 0; 0]); ("strides", ints [2; 2])]
         (DtOne float32) [B; PyInt 64; PyInt 7; PyInt 7] scope_name "" n ;;
  let '(tensor6, n) := r in tensor6 <- as_tensor tensor6 ;;
  r <- add_node "Transpose" [tensor6] [("perm", ints [0; 2; 3; 1])]
         (DtOne float32) [B; PyInt 7; PyInt 7; PyInt 64] scope_name "" n ;;
  let '(tensor7, n) := r in tensor7 <- as_tensor tensor7 ;;
  r <- add_node "Reshape" [tensor7; constantM1Comma3136] []
         (DtOne float32) [B; PyInt 3136] scope_name "" n ;;
  let '(tensor8, n) := r in tensor8 <- as_tensor tensor8 ;;
  r <- add_node "MatMul" [tensor8; constant3136x1024] []
         (DtOne float32) [B; PyInt 1024] scope_name "" n ;;
  let '(tensor9, n) := r in tensor9 <- as_tensor tensor9 ;;
  r <- add_node "Add" [tensor9; constant1024] []
         (DtOne float32) [B; PyInt 1024] scope_name "" n ;;
  let '(tensor10, n) := r in tensor10 <- as_tensor tensor10 ;;
  r <- add_node "Relu" [tensor10] []
         (DtOne float32) [B; PyInt 1024] scope_name "" n ;;
  let '(tensor11, n) := r in tensor11 <- as_tensor tensor11 ;;
  r <- add_node "MatMul" [tensor11; constant1024x10] []
         (DtOne float32) [B; PyInt 10] scope_name "" n ;;
  let '(tensor12, n) := r in tensor12 <- as_tensor tensor12 ;;
  r <- add_node "Add" [tensor12; constant10] []
         (DtOne float32) [B; PyInt 10] scope_name "" n ;;
  let '(tensor13, n) := r in tensor13 <- as_tensor tensor13 ;;
  r <- add_node "Softmax" [tensor13] [("axis", PyInt 1)]
         (DtOne float32) [B; PyInt 10] scope_name "" n ;;
  let '(tensor14, n) := r in tensor14 <- as_tensor tensor14 ;;
  r <- add_node "ArgMax" [tensor14] [("axis", PyInt 1); ("keepdims", PyInt 0)]
         (DtOne int64) [B] scope_name "" n ;;
  let '(tensor15, n) := r in tensor15 <- as_tensor tensor15 ;;
  set_graph_inputs [tensorX] ;;;
  set_graph_outputs [tensor13; tensor15] ;;;
  graph_cleanup ;;;
  graph_toposort ;;;
  ret tt.

(** ** The other builders *)

(** In all of them the data of the constants is not kept, a numpy array
    given as an attribute is kept as the list of its elements, and the export
    of the finished graph is not modelled. *)

Definition build_half_mnist_network_onnx : M unit :=
  set_graph (mkGraph [] [] []) ;;;
  tensorX <- gs_Variable "tensorX" float32 (PyList [B; PyInt 1; PyInt 28; PyInt 28]) ;;
  constant32x1 <- gs_Constant "constant32x1x5x5" float32 (ints [32; 1; 5; 5]) ;;
  constant32 <- gs_Constant "constant32" float32 (ints [32]) ;;
  constant64x32 <- gs_Constant "constant64x32x5x5" float32 (ints [64; 32; 5; 5]) ;;
  constant64 <- gs_Constant "constant64" float32 (ints [64]) ;;
  let n := 0 in
  let scope_name := "HALF_MNIST" in
  r <- add_node "Conv" [tensorX; constant32x1; constant32]
         [("kernel_shape", ints [5; 5]); ("pads", ints [2; 2; 2; 2])]
         (DtOne float32) [B; PyInt 32; PyInt 28; PyInt 28] scope_name "" n ;;
  let '(tensor1, n) := r in tensor1 <- as_tensor tensor1 ;;
  r <- add_node "Relu" [tensor1] []
         (DtOne float32) [B; PyInt 32; PyInt 28; PyInt 28] scope_name "" n ;;
  let '(tensor2, n) := r in tensor2 <- as_tensor tensor2 ;;
  r <- add_node "MaxPool" [tensor2]
         [("kernel_shape", ints [2; 2]); ("pads", ints [0; 0; 0; 0]); ("strides", ints [2; 2])]
         (DtOne float32) [B; PyInt 32; PyInt 14; PyInt 14] scope_name "" n ;;
  let '(tensor3, n) := r in tensor3 <- as_tensor tensor3 ;;
  r <- add_node "Conv" [tensor3; constant64x32; constant64]
         [("kernel_shape", ints [5; 5]); ("pads", ints [2; 2; 2; 2])]
         (DtOne float32) [B; PyInt 64; PyInt 14; PyInt 14] scope_name "" n ;;
  let '(tensor4, n) := r in tensor4 <- as_tensor tensor4 ;;
  r <- add_node "Relu" [tensor4] []
         (DtOne float32) [B; PyInt 64; PyInt 14; PyInt 14] scope_name "" n ;;
  let '(tensor5, n) := r in tensor5 <- as_tensor tensor5 ;;
  r <- add_node "MaxPool" [tensor5]
         [("kernel_shape", ints [2; 2]); ("pads", ints [0; 0; 0; 0]); ("strides", ints [2; 2])]
         (DtOne float32) [B; PyInt 64; PyInt 7; PyInt 7] scope_name "" n ;;
  let '(tensor6, n) := r in tensor6 <- as_tensor tensor6 ;;
  set_graph_inputs [tensorX] ;;;
  set_graph_outputs [tensor6] ;;;
  graph_cleanup ;;;
  graph_toposort ;;;
  ret tt.

Definition build_invalid_network_onnx : M unit :=
  set_graph (mkGraph [] [] []) ;;;
  let batch_name := PyStr "nBS" in
  tensorX <- gs_Variable "tensorT0" float32 (PyList [batch_name]) ;;
  constant0 <- gs_Constant "constant0" float32 (ints [1]) ;;
  let n := 0 in
  let scope_name := "InvalidModel" in
  r <- add_node "Div" [tensorX; constant0] []
         (DtOne float32) [batch_name] scope_name "" n ;;
  let '(tensor1, n) := r in tensor1 <- as_tensor tensor1 ;;
  set_graph_inputs [tensorX] ;;;
  set_graph_outputs [tensor1] ;;;
  graph_cleanup ;;;
  graph_toposort ;;;
  ret tt.

(** [batch_name] is the integer 7 or the string ["nBS"]; [batch_text] is what
    the f-string [f"{batch_name}*24"] makes of it. *)
Definition build_redundant_network_onnx (b_static_batch : bool) : M unit :=
  set_graph (mkGraph [] [] []) ;;;
  let batch_name := if b_static_batch then PyInt 7 else PyStr "nBS" in
  let batch_text := if b_static_batch then str 7 else "nBS" in
  tensorX <- gs_Variable "inputT0" float32
               (PyList [batch_name; PyInt 2; PyInt 3; PyInt 4]) ;;
  constant0C1 <- gs_Constant "constant0C1" int64 (ints [2]) ;;
  constant2C3 <- gs_Constant "constant2C3" int64 (ints [2]) ;;
  let n := 0 in
  let scope_name := "RedundantModel" in
  r <- add_node "Shape" [tensorX] [] (DtOne int64) [PyInt 4] scope_name "" n ;;
  let '(tensor1, n) := r in tensor1 <- as_tensor tensor1 ;;
  r <- add_node "ReduceProd" [tensor1] [("axes", ints [0]); ("keepdims", PyInt 1)]
         (DtOne int64) [PyInt 1] scope_name "" n ;;
  let '(tensor2, n) := r in tensor2 <- as_tensor tensor2 ;;
  r <- add_node "Reshape" [tensorX; tensor2] []
         (DtOne float32) [PyStr (batch_text +:+ "*24")] scope_name "" n ;;
  let '(tensor3, n) := r in tensor3 <- as_tensor tensor3 ;;
  r <- add_node "Gather" [tensor1; constant0C1] []
         (DtOne int64) [PyInt 2] scope_name "" n ;;
  let '(tensor4, n) := r in tensor4 <- as_tensor tensor4 ;;
  r <- add_node "Gather" [tensor1; constant2C3] []
         (DtOne int64) [PyInt 2] scope_name "" n ;;
  let '(tensor5, n) := r in tensor5 <- as_tensor tensor5 ;;
  r <- add_node "ReduceProd" [tensor5] [("axes", ints [0]); ("keepdims", PyInt 1)]
         (DtOne int64) [PyInt 1] scope_name "" n ;;
  let '(tensor6, n) := r in tensor6 <- as_tensor tensor6 ;;
  r <- add_node "Concat" [tensor4; tensor6] [("axis", PyInt 0)]
         (DtOne int64) [PyInt 4] scope_name "" n ;;
  let '(tensor7, n) := r in tensor7 <- as_tensor tensor7 ;;
  r <- add_node "Reshape" [tensorX; tensor7] []
         (DtOne float32) [batch_name; PyInt 2; PyInt 12] scope_name "" n ;;
  let '(tensor8, n) := r in tensor8 <- as_tensor tensor8 ;;
  set_graph_inputs [tensorX] ;;;
  set_graph_outputs [tensor3; tensor8] ;;;
  graph_cleanup ;;;
  graph_toposort ;;;
  ret tt.

Definition build_unknown_network_onnx : M unit :=
  set_graph (mkGraph [] [] []) ;;;
  tensorX <- gs_Variable "x" float32 (PyList [B]) ;;
  let n := 0 in
  let scopeName := "UnknownModel" in
  r <- add_node "Identity" [tensorX] [] (DtOne float32) [B] scopeName "" n ;;
  let '(tensor1, n) := r in tensor1 <- as_tensor tensor1 ;;
  r <- add_node "UnknownNode1" [tensor1] [] (DtOne float32) [B] scopeName "" n ;;
  let '(tensor2, n) := r in tensor2 <- as_tensor tensor2 ;;
  r <- add_node "Identity" [tensor2] [] (DtOne float32) [B] scopeName "" n ;;
  let '(tensor3, n) := r in tensor3 <- as_tensor tensor3 ;;
  r <- add_node "UnknownNode2" [tensor3] [] (DtOne float32) [B] scopeName "" n ;;
  let '(tensor4, n) := r in tensor4 <- as_tensor tensor4 ;;
  r <- add_node "Identity" [tensor4] [] (DtOne float32) [B] scopeName "" n ;;
  let '(tensor5, n) := r in tensor5 <- as_tensor tensor5 ;;
  set_graph_inputs [tensorX] ;;;
  set_graph_outputs [tensor5] ;;;
  graph_cleanup ;;;
  graph_toposort ;;;
  ret tt.

Definition build_reshape_network_onnx : M unit :=
  set_graph (mkGraph [] [] []) ;;;
  let output_dimension := 3%nat in
  tensorX <- gs_Variable "inputT0" float32 (ints [-1; -1; -1]) ;;
  tensorY <- gs_Variable "inputT1" int32 (PyList [PyInt (Z.of_nat output_dimension)]) ;;
  let n := 0 in
  let scope_name := "ReshapeModel" in
  r <- add_node "MyReshape" [tensorX; tensorY]
         [("tensorrt_plugin_shape_input_indices", ints [1])]
         (DtOne float32) (replicate output_dimension (PyInt (-1))) scope_name "" n ;;
  let '(tensor1, n) := r in tensor1 <- as_tensor tensor1 ;;
  set_graph_inputs [tensorX; tensorY] ;;;
  set_graph_outputs [tensor1] ;;;
  graph_cleanup ;;;
  graph_toposort ;;;
  ret tt.

(** * Vocabulary of the statements *)

(** ** Decimal numerals *)

Definition is_digit (a : Ascii.ascii) : bool :=
  let n := Ascii.nat_of_ascii a in (48 <=? n)%nat && (n <=? 57)%nat.

Fixpoint all_digits (s : string) : bool :=
  match s with
  | EmptyString => true
  | String a s' => is_digit a && all_digits s'
  end.

(** ** Arguments and results of [add_node] *)

(** What [add_node] puts after the position of an output tensor. *)
Definition suffix_part (suffix : string) : string :=
  match suffix with
  | EmptyString => ""
  | _ => "-" +:+ suffix
  end.

(** The precondition of [add_node]: lists of the same length, or one dtype. *)
Definition args_ok (datatype_list : dtype_arg) (shape_list : list pyval) : Prop :=
  match datatype_list with
  | DtList l => length l = length shape_list
  | DtOne _ => True
  end.

(** The element types and the shapes of the outputs that are asked for. *)
Definition out_dtypes (datatype_list : dtype_arg) : list dtype :=
  match datatype_list with DtList l => l | DtOne d => [d] end.

Definition out_shapes (datatype_list : dtype_arg) (shape_list : list pyval) :
  list pyval :=
  match datatype_list with DtList _ => shape_list | DtOne _ => [PyList shape_list] end.

(** A list of one tensor is returned as that tensor. *)
Definition wrap (output_list : list tref) : node_result :=
  match output_list with
  | [t] => OneOutput t
  | _ => ManyOutputs output_list
  end.

(** The names of the nodes and of the tensors that exist in [w'] and did not
    exist in [w]. *)
Definition created_names (w w' : World) : list string :=
  drop (length (nodes (graph w))) (n_name <$> nodes (graph w')) ++
  drop (length (tensors w)) (t_name <$> tensors w').

(** The names that one call makes up: the node name, then the tensor names. *)
Definition call_names (prefix : string) (number : Z) (node_type suffix : string)
           (n_output : nat) : list string :=
  node_name prefix number node_type ::
  ((fun i => tensor_name prefix number node_type suffix (Z.of_nat i))
     <$> seq 0 n_output).

Definition ends_with (s tail : string) : Prop :=
  exists front, s = front +:+ tail.

(** ** Outcomes *)

(** [m] returns values in [Q] or raises exceptions in [P]. *)
Definition yields {A} (Q : A -> Prop) (P : exn -> Prop) (m : M A) : Prop :=
  forall w, match fst (m w) with Ret a => Q a | Raise e => P e end.

Definition any {A} (_ : A) : Prop := True.

(** The exceptions of the marking loops: an index out of range, or the
    element type of a constant being assigned. *)
Definition mark_error (e : exn) : Prop := e = IndexError \/ e = AttributeError.

(** All of the tensors [l] are variables. *)
Definition variables_only (w : World) (l : list tref) : Prop :=
  Forall (fun t => is_constant w t = false) l.

(** [m] produces an input of [n]. *)
Definition produces_for (n m : GsNode) : bool :=
  existsb (fun t => bool_decide (t ∈ n_outputs m)) (n_inputs n).

(** The node list is in dependency order: no node consumes what it or a
    later node produces. *)
Fixpoint ordered (ns : list GsNode) : Prop :=
  match ns with
  | [] => True
  | n :: rest =>
      Forall (fun m => produces_for n m = false) (n :: rest) /\ ordered rest
  end.

(** The store after [t.dtype = np.dtype(np.float32)] for every [t] in [sel]. *)
Definition coerce_all (sel : list tref) (ts : list GsTensor) : list GsTensor :=
  foldl (fun ts t => alter (with_dtype float32) t ts) ts sel.

(** ** Index selections of [mark_graph_output] *)

(** [l[i]] as a value: [None] where Python raises [IndexError]. *)
Definition py_get {A} (l : list A) (i : Z) : option A :=
  let j := if i <? 0 then len l + i else i in
  if j <? 0 then None else l !! Z.to_nat j.

(** The elements at the indices [idx], up to the first index out of range. *)
Fixpoint py_gets {A} (l : list A) (idx : list Z) : list A :=
  match idx with
  | [] => []
  | i :: rest =>
      match py_get l i with
      | Some a => a :: py_gets l rest
      | None => []
      end
  end.

Fixpoint py_all_ok {A} (l : list A) (idx : list Z) : bool :=
  match idx with
  | [] => true
  | i :: rest =>
      match py_get l i with
      | Some _ => py_all_ok l rest
      | None => false
      end
  end.

(** What an index argument of [mark_graph_output] selects from the tensors
    [l] of the only matching node: all of them for [None]. *)
Definition selected (l : list tref) (indices : option (list Z)) : list tref :=
  match indices with
  | None => l
  | Some idx => py_gets l idx
  end.

Definition selection_ok (l : list tref) (indices : option (list Z)) : bool :=
  match indices with
  | None => true
  | Some idx => py_all_ok l idx
  end.

(** The outputs the marking starts from. *)
Definition kept_outputs (bRemoveOldOutput : bool) (w : World) : list tref :=
  if bRemoveOldOutput then [] else outputs (graph w).

(** A tensor that [mark_graph_output] may mark: an output (when outputs are
    marked) or an input (when inputs are marked) of a node of [ns] whose name
    is asked for. *)
Definition markable (lNode : list string) (bMarkOutput bMarkInput : bool)
           (ns : list GsNode) (t : tref) : Prop :=
  exists node, node ∈ ns /\ n_name node ∈ lNode /\
    ((bMarkOutput = true /\ t ∈ n_outputs node) \/
     (bMarkInput = true /\ t ∈ n_inputs node)).

(** ** Effects on the world *)

(** Every run of [m] relates the world before to the world after by [R],
    also when it raises. *)
Definition preserves {A} (R : World -> World -> Prop) (m : M A) : Prop :=
  forall w, R w (snd (m w)).

(** What a tensor is, apart from its links to nodes. *)
Definition tensor_attrs (T : GsTensor) : tensor_kind * string * dtype * pyval :=
  (t_kind T, t_name T, t_dtype T, t_shape T).

(** The tensors are the same up to their links to nodes. *)
Definition same_attrs (w w' : World) : Prop :=
  tensor_attrs <$> tensors w' = tensor_attrs <$> tensors w.

(** Apart from links to nodes, only element types change, only to [float32]
    and only on variables. *)
Definition dtype_only (w w' : World) : Prop :=
  length (tensors w') = length (tensors w) /\
  forall (t : tref) (T : GsTensor),
    tensors w !! t = Some T ->
    exists T', tensors w' !! t = Some T' /\
      t_kind T' = t_kind T /\ t_name T' = t_name T /\ t_shape T' = t_shape T /\
      (t_dtype T' = t_dtype T \/ (t_dtype T' = float32 /\ t_kind T = KVariable)).

Definition same_inputs (w w' : World) : Prop :=
  inputs (graph w') = inputs (graph w).

(** The frame of the whole function: the store keeps its tensors up to
    element types, and the declared inputs stay. *)
Definition mark_frame (w w' : World) : Prop :=
  dtype_only w w' /\ same_inputs w w'.

(** The graph outputs grow at the end, by tensors in [P]. *)
Definition outputs_grow (P : tref -> Prop) (w w' : World) : Prop :=
  exists added, outputs (graph w') = outputs (graph w) ++ added /\ Forall P added.

(** ** Well-formed worlds *)

(** Every tensor reference held by the graph or by one of its nodes is a
    tensor of the store. *)
Definition refs_valid (w : World) : Prop :=
  let ok := Forall (fun t : tref => (t < length (tensors w))%nat) in
  ok (inputs (graph w)) /\ ok (outputs (graph w)) /\
  Forall (fun n => ok (n_inputs n) /\ ok (n_outputs n)) (nodes (graph w)).

(** A finished graph as a builder leaves it: node names and tensor names
    without duplicates, nothing for the cleanup to remove, an order the sort
    accepts as it is, and valid references. *)
Definition well_built (w : World) : bool :=
  bool_decide (NoDup (n_name <$> nodes (graph w))) &&
  bool_decide (NoDup (t_name <$> tensors w)) &&
  (length (nodes (cleanup (graph w))) =? length (nodes (graph w)))%nat &&
  bool_decide (is_Some (toposort (nodes (graph w)))) &&
  forallb (fun t => (t <? length (tensors w))%nat)
          (inputs (graph w) ++ outputs (graph w) ++
           flat_map (fun n => n_inputs n ++ n_outputs n) (nodes (graph w))).

(** The names of the tensors that the references [l] point to. *)
Definition names_of (w : World) (l : list tref) : list string :=
  omap (fun t => t_name <$> tensors w !! t) l.

(** The builder [m], run on a fresh graph, returns and leaves a well-built
    graph of [n] nodes whose declared inputs and outputs bear the names [ins]
    and [outs]. *)
Definition built (m : M unit) (n : nat) (ins outs : list string) : Prop :=
  let r := m empty_world in
  fst r = Ret tt /\ well_built (snd r) = true /\
  length (nodes (graph (snd r))) = n /\
  names_of (snd r) (inputs (graph (snd r))) = ins /\
  names_of (snd r) (outputs (graph (snd r))) = outs.

(** ** Small graphs *)

(** One node that produces the tensor [x], which is the graph output. *)
Definition frame_node : GsNode := mkNode "Shape" "old" [] [] [0%nat].

Definition frame_world : World :=
  mkWorld [mkTensor KVariable "x" int64 (PyList [PyInt 2]) [frame_node] []]
          (mkGraph [frame_node] [] [0%nat]).

(** A graph input [x] with three consumers. *)
Definition son_relu : GsNode := mkNode "Relu" "n0" [] [0%nat] [1%nat].

Definition son_conv1 : GsNode := mkNode "Conv" "n1" [] [0%nat] [2%nat].

Definition son_conv2 : GsNode := mkNode "Conv" "n2" [] [0%nat] [3%nat].

Definition son_tensor : GsTensor :=
  mkTensor KVariable "x" float32 (PyList []) [] [son_relu; son_conv1; son_conv2].

Definition son_world : World :=
  mkWorld [son_tensor;
           mkTensor KVariable "a" float32 (PyList []) [son_relu] [];
           mkTensor KVariable "b" float32 (PyList []) [son_conv1] [];
           mkTensor KVariable "c" float32 (PyList []) [son_conv2] []]
          (mkGraph [son_relu; son_conv1; son_conv2] [0%nat] [1%nat; 2%nat; 3%nat]).

Definition is_conv (_ : World) (n : GsNode) : bool :=
  bool_decide (n_op n = "Conv").

(** A node named ["Conv"] with an [int64] and an [int32] output, followed by
    a node that consumes the first of them. *)
Definition conv_node : GsNode := mkNode "Conv" "Conv" [] [0%nat] [1%nat; 2%nat].

Definition relu_node : GsNode := mkNode "Relu" "Relu" [] [1%nat] [3%nat].

Definition conv_world : World :=
  mkWorld [mkTensor KVariable "x" float32 (PyList []) [] [conv_node];
           mkTensor KVariable "y" int64 (PyList []) [conv_node] [relu_node];
           mkTensor KVariable "aux" int32 (PyList []) [conv_node] [];
           mkTensor KVariable "z" float32 (PyList []) [relu_node] []]
          (mkGraph [conv_node; relu_node] [0%nat] [3%nat]).

(** A node named ["Conv"] whose output is bound to data. *)
Definition const_node : GsNode := mkNode "Conv" "Conv" [] [0%nat] [1%nat].

Definition const_world : World :=
  mkWorld [mkTensor KVariable "x" float32 (PyList []) [] [const_node];
           mkTensor KConstant "c" int64 (PyList []) [const_node] []]
          (mkGraph [const_node] [0%nat] [1%nat]).

(** Two nodes with the same name, the first with two outputs and the second
    with one. *)
Definition twin_split : GsNode := mkNode "Split" "n" [] [0%nat] [1%nat; 2%nat].

Definition twin_relu : GsNode := mkNode "Relu" "n" [] [0%nat] [3%nat].

Definition twin_world : World :=
  mkWorld [mkTensor KVariable "x" float32 (PyList []) [] [twin_split; twin_relu];
           mkTensor KVariable "a" float32 (PyList []) [twin_split] [];
           mkTensor KVariable "b" float32 (PyList []) [twin_split] [];
           mkTensor KVariable "c" float32 (PyList []) [twin_relu] []]
          (mkGraph [twin_split; twin_relu] [0%nat] [1%nat; 2%nat; 3%nat]).

(** * Properties *)

(** ** Sample runs *)

Example add_node_two_outputs :
  let r := add_node "TopK" [] [] (DtList [float32; int64])
                    [PyList [PyInt 1]; PyList [PyInt 1]] "P" "b" 4 empty_world in
  fst r = Ret (ManyOutputs [0%nat; 1%nat], 5) /\
  created_names empty_world (snd r)
  = ["P-N-4-TopK"; "P-V-4-TopK-0-b"; "P-V-4-TopK-1-b"].
Proof. vm_compute. split; reflexivity. Qed.

Example add_node_one_output :
  let r := add_node "Relu" [0%nat] [] (DtOne float32) [PyStr "B"; PyInt 10]
                    "MNIST" "" 11 frame_world in
  fst r = Ret (OneOutput 1%nat, 12) /\
  created_names frame_world (snd r) = ["MNIST-N-11-Relu"; "MNIST-V-11-Relu-0"] /\
  t_shape <$> tensors (snd r) !! 1%nat = Some (PyList [PyStr "B"; PyInt 10]).
Proof. vm_compute. repeat split. Qed.

Example add_node_list_of_one :
  fst (add_node "Relu" [] [] (DtList [float32]) [PyList []] "P" "" 0 empty_world)
  = Ret (OneOutput 0%nat, 1).
Proof. reflexivity. Qed.

Example add_node_no_output :
  fst (add_node "Sink" [] [] (DtList []) [] "P" "" 0 empty_world)
  = Ret (ManyOutputs [], 1).
Proof. reflexivity. Qed.

Example cleanup_drops_unreachable :
  nodes (cleanup (mkGraph [conv_node; relu_node] [0%nat] [1%nat])) = [conv_node].
Proof. reflexivity. Qed.

Example toposort_reorders :
  toposort [relu_node; conv_node] = Some [conv_node; relu_node].
Proof. reflexivity. Qed.

Example toposort_cycle :
  toposort [mkNode "A" "a" [] [1%nat] [2%nat]; mkNode "B" "b" [] [2%nat] [1%nat]]
  = None.
Proof. reflexivity. Qed.

Example py_index_negative :
  fst (py_index [10; 20; 30] (-1) empty_world) = Ret 30 /\
  fst (py_index [10; 20; 30] (-4) empty_world) = Raise IndexError /\
  fst (py_index [10; 20; 30] 3 empty_world) = Raise IndexError.
Proof. repeat split. Qed.

(** ** Decimal numerals and generated names *)

Lemma pretty_N_char_digit (x : N) : is_digit (pretty_N_char x) = true.
Proof. unfold pretty_N_char. repeat case_match; reflexivity. Qed.

Lemma pretty_N_go_digits (x : N) :
  forall s, all_digits s = true -> all_digits (pretty_N_go x s) = true.
Proof.
  induction (N.lt_wf_0 x) as [x _ IH]. intros s Hs.
  destruct (decide (x = 0)%N) as [->|Hx].
  - now rewrite pretty_N_go_0.
  - rewrite pretty_N_go_step by lia.
    apply IH.
    + apply N.div_lt; lia.
    + simpl. now rewrite pretty_N_char_digit.
Qed.

Lemma str_digits (n : Z) : 0 <= n -> all_digits (str n) = true.
Proof.
  intros Hn. unfold str, pretty, pretty_Z.
  destruct n as [|p|p]; [reflexivity| |lia].
  unfold pretty, pretty_positive, pretty, pretty_N.
  case_decide; [reflexivity|]. now apply pretty_N_go_digits.
Qed.

Lemma str_inj (m n : Z) : str m = str n -> m = n.
Proof. apply pretty_Z_inj. Qed.

(** A numeral that is followed by a dash ends at that dash. *)
Lemma digits_dash (d1 d2 r1 r2 : string) :
  all_digits d1 = true -> all_digits d2 = true ->
  d1 +:+ "-" +:+ r1 = d2 +:+ "-" +:+ r2 -> d1 = d2.
Proof.
  revert d2. induction d1 as [|a d1 IH]; intros [|b d2] H1 H2 E; simpl in *.
  - reflexivity.
  - injection E as <- _. discriminate.
  - injection E as -> _. discriminate.
  - injection E as <- E.
    apply andb_prop in H1 as [_ H1]. apply andb_prop in H2 as [_ H2].
    f_equal. eauto.
Qed.

Lemma append_cons (x : Ascii.ascii) (a b : string) :
  String x a +:+ b = String x (a +:+ b).
Proof. reflexivity. Qed.

Lemma append_assoc (a b c : string) : (a +:+ b) +:+ c = a +:+ b +:+ c.
Proof.
  induction a as [|x a IH]; [reflexivity|].
  rewrite !append_cons. now rewrite IH.
Qed.

Lemma append_empty_r (a : string) : a +:+ "" = a.
Proof.
  induction a as [|x a IH]; [reflexivity|].
  rewrite append_cons. now rewrite IH.
Qed.

Lemma tensor_name_eq prefix number node_type suffix i :
  tensor_name prefix number node_type suffix i =
  prefix +:+ "-V-" +:+ str number +:+ "-" +:+ node_type +:+ "-" +:+ str i
         +:+ suffix_part suffix.
Proof.
  unfold tensor_name, suffix_part. destruct suffix as [|a s].
  - change (0 <? Z.of_nat (String.length "")) with false. cbv iota.
    now rewrite append_empty_r.
  - replace (0 <? Z.of_nat (String.length (String a s))) with true
      by (symmetry; apply Z.ltb_lt; simpl; lia).
    now rewrite !append_assoc.
Qed.

Lemma suffix_part_cases (suffix : string) :
  suffix_part suffix = "" \/ suffix_part suffix = "-" +:+ suffix.
Proof. destruct suffix; [left|right]; reflexivity. Qed.

Lemma node_tensor_name_ne p k t k' t' s i :
  node_name p k t <> tensor_name p k' t' s i.
Proof.
  rewrite tensor_name_eq. unfold node_name. intros E.
  apply (inj (String.append p)) in E. discriminate.
Qed.

Lemma node_name_counter_ne p k t t' :
  0 <= k -> node_name p k t <> node_name p (k + 1) t'.
Proof.
  intros Hk E. unfold node_name in E.
  apply (inj (String.append p)) in E. apply (inj (String.append "-N-")) in E.
  apply digits_dash in E; [|apply str_digits; lia..].
  apply str_inj in E. lia.
Qed.

Lemma tensor_name_counter_ne p k t t' s s' i j :
  0 <= k -> tensor_name p k t s i <> tensor_name p (k + 1) t' s' j.
Proof.
  intros Hk E. rewrite !tensor_name_eq in E.
  apply (inj (String.append p)) in E. apply (inj (String.append "-V-")) in E.
  apply digits_dash in E; [|apply str_digits; lia..].
  apply str_inj in E. lia.
Qed.

Lemma tensor_name_position_inj p k t s (i j : nat) :
  tensor_name p k t s (Z.of_nat i) = tensor_name p k t s (Z.of_nat j) -> i = j.
Proof.
  intros E. rewrite !tensor_name_eq in E.
  do 6 (apply String.app_inj in E).
  assert (str (Z.of_nat i) = str (Z.of_nat j)) as E'.
  { destruct (suffix_part_cases s) as [Hs | Hs]; rewrite Hs in E.
    - now rewrite !append_empty_r in E.
    - eapply digits_dash; [apply str_digits; lia..|exact E]. }
  apply str_inj in E'. lia.
Qed.

(** ** Running [add_node] *)

Lemma result_tensors_wrap (l : list tref) : result_tensors (wrap l) = l.
Proof. destruct l as [|t [|t' l]]; reflexivity. Qed.

Lemma world_eta (w : World) : mkWorld (tensors w) (graph w) = w.
Proof. now destruct w. Qed.

Lemma graph_eta (g : Graph) : mkGraph (nodes g) (inputs g) (outputs g) = g.
Proof. now destruct g. Qed.

Lemma py_index_lookup {A} (l : list A) (i : nat) (a : A) (w : World) :
  l !! i = Some a -> py_index l (Z.of_nat i) w = (Ret a, w).
Proof.
  intros H. unfold py_index.
  destruct (Z.ltb_spec (Z.of_nat i) 0) as [?|_]; [lia|].
  destruct (Z.ltb_spec (Z.of_nat i) 0) as [?|_]; [lia|].
  now rewrite Nat2Z.id, H.
Qed.

Section output_loop.
Variables (prefix : string) (number : Z) (node_type suffix : string).
Variables (datatype_list : list dtype) (shape_list : list pyval).

Local Abbreviation loop :=
  (output_loop prefix number node_type suffix datatype_list shape_list).
Local Abbreviation name :=
  (fun i : nat => tensor_name prefix number node_type suffix (Z.of_nat i)).

Lemma output_loop_app (idx1 idx2 : list nat) (acc : list tref) (w : World) :
  loop (idx1 ++ idx2) acc w =
  match loop idx1 acc w with
  | (Ret acc', w') => loop idx2 acc' w'
  | (Raise e, w') => (Raise e, w')
  end.
Proof.
  revert acc w.
  induction idx1 as [|i idx1 IH]; intros acc w; [reflexivity|].
  cbn [app output_loop]. unfold bind at 1 4.
  destruct (py_index datatype_list (Z.of_nat i) w) as [[d|e] w1]; [|reflexivity].
  unfold bind at 1 3.
  destruct (py_index shape_list (Z.of_nat i) w1) as [[s|e] w2]; [|reflexivity].
  unfold bind, gs_Variable. apply IH.
Qed.

(** Inside the bounds of both lists the loop never fails: it allocates one
    fresh variable per position. *)
Lemma output_loop_seq (n : nat) (acc : list tref) (w : World) :
  (n <= length datatype_list)%nat -> (n <= length shape_list)%nat ->
  exists new : list GsTensor,
    loop (seq 0 n) acc w =
      (Ret (acc ++ seq (length (tensors w)) n),
       mkWorld (tensors w ++ new) (graph w)) /\
    t_name <$> new = name <$> seq 0 n /\
    t_dtype <$> new = take n datatype_list /\
    t_shape <$> new = take n shape_list /\
    Forall (fun t => t_kind t = KVariable /\ t_inputs t = [] /\ t_outputs t = []) new.
Proof.
  induction n as [|n IH]; intros Hd Hs.
  - exists []. cbn. rewrite !app_nil_r, world_eta. repeat split; constructor.
  - destruct IH as (new & Hrun & Hn & Hdt & Hsh & Hfresh); [lia..|].
    destruct (lookup_lt_is_Some_2 datatype_list n) as [d Hdn]; [lia|].
    destruct (lookup_lt_is_Some_2 shape_list n) as [s Hsn]; [lia|].
    exists (new ++ [mkTensor KVariable (name n) d s [] []]).
    rewrite !seq_S, output_loop_app, Hrun. cbn [plus].
    cbn [output_loop]. unfold bind at 1.
    rewrite (py_index_lookup _ _ _ _ Hdn). unfold bind at 1.
    rewrite (py_index_lookup _ _ _ _ Hsn). unfold bind, gs_Variable, ret.
    cbn [tensors graph]. rewrite length_app.
    assert (length new = n) as Hlen.
    { rewrite <- (length_fmap t_name), Hn, length_fmap. apply length_seq. }
    rewrite Hlen, <- !app_assoc. split; [reflexivity|].
    rewrite !fmap_app, Hn, Hdt, Hsh, (take_S_r _ _ _ Hdn), (take_S_r _ _ _ Hsn).
    repeat split. apply Forall_app. split; [assumption|]. repeat constructor.
Qed.
End output_loop.

Lemma foldl_alter_fmap {B} (proj : GsTensor -> B) (f : GsTensor -> GsTensor)
      (l : list tref) (ts : list GsTensor) :
  (forall t, proj (f t) = proj t) ->
  proj <$> foldl (fun ts t => alter f t ts) ts l = proj <$> ts.
Proof.
  intros Hf. revert ts. induction l as [|t l IH]; intros ts; [reflexivity|].
  cbn [foldl]. rewrite IH.
  rewrite (list_fmap_alter proj f id).
  - now apply list_alter_id.
  - apply Forall_forall. intros x _. apply Hf.
Qed.

Lemma add_node_assert node_type input_list attribution l shape_list
      prefix suffix number (w : World) :
  length l <> length shape_list ->
  add_node node_type input_list attribution (DtList l) shape_list
           prefix suffix number w = (Raise AssertionError, w).
Proof.
  intros Hlen. unfold add_node, bind, assert, len.
  destruct (Z.eqb_spec (Z.of_nat (length l)) (Z.of_nat (length shape_list)));
    [lia|reflexivity].
Qed.

Lemma ret_wrap (l : list tref) (k : Z) :
  match l with
  | [t] => ret (OneOutput t, k)
  | _ => ret (ManyOutputs l, k)
  end = ret (wrap l, k).
Proof. destruct l as [|t [|t' l]]; reflexivity. Qed.

(** The effect of a call that meets the precondition. *)
Lemma add_node_spec node_type input_list attribution datatype_list shape_list
      prefix suffix number (w : World) :
  args_ok datatype_list shape_list ->
  let dl := out_dtypes datatype_list in
  let output_list := seq (length (tensors w)) (length dl) in
  let node := mkNode node_type (node_name prefix number node_type) attribution
                     input_list output_list in
  exists w',
    add_node node_type input_list attribution datatype_list shape_list
             prefix suffix number w = (Ret (wrap output_list, number + 1), w') /\
    graph w' = mkGraph (nodes (graph w) ++ [node])
                       (inputs (graph w)) (outputs (graph w)) /\
    t_name <$> tensors w' =
      (t_name <$> tensors w) ++
      ((fun i => tensor_name prefix number node_type suffix (Z.of_nat i))
         <$> seq 0 (length dl)) /\
    t_dtype <$> tensors w' = (t_dtype <$> tensors w) ++ dl /\
    t_shape <$> tensors w' =
      (t_shape <$> tensors w) ++ out_shapes datatype_list shape_list /\
    t_kind <$> tensors w' =
      (t_kind <$> tensors w) ++ replicate (length dl) KVariable.
Proof.
  intros Hok dl output_list node.
  assert (length (out_shapes datatype_list shape_list) = length dl) as Hlen.
  { destruct datatype_list; cbn in *; congruence. }
  destruct (output_loop_seq prefix number node_type suffix dl
              (out_shapes datatype_list shape_list) (length dl) [] w)
    as (new & Hrun & Hn & Hdt & Hsh & Hfresh); [lia..|].
  rewrite firstn_all in Hdt. rewrite <- Hlen, firstn_all in Hsh.
  assert (t_kind <$> new = replicate (length dl) KVariable) as Hk.
  { assert (length new = length dl) as <-
        by now rewrite <- (length_fmap t_dtype), Hdt.
    clear -Hfresh. induction Hfresh as [|t new [Ht _] _ IH]; [reflexivity|].
    cbn. now rewrite Ht, IH. }
  eexists. split.
  - unfold add_node.
    assert (forall k : list dtype * list pyval -> M (node_result * Z),
      bind (match datatype_list with
            | DtList l => assert (len l =? len shape_list) ;;; ret (l, shape_list)
            | DtOne d => ret ([d], [PyList shape_list])
            end) k w = k (dl, out_shapes datatype_list shape_list) w) as ->.
    { intros k. destruct datatype_list as [d|l]; [reflexivity|].
      cbn in Hok. unfold bind, assert, len. rewrite Hok, Z.eqb_refl. reflexivity. }
    cbv beta iota. unfold bind at 1. fold dl. rewrite Hrun. cbn [app].
    fold output_list. unfold bind, gs_Node, graph_nodes_append.
    cbn [tensors graph]. fold node. rewrite ret_wrap. reflexivity.
  - cbn [tensors graph]. split; [reflexivity|].
    rewrite !foldl_alter_fmap by reflexivity.
    rewrite !fmap_app, Hn, Hdt, Hsh, Hk. repeat split.
Qed.

Lemma fmap_app_lookup {A B} (f : A -> B) (l l0 : list A) (k : list B)
      (i : nat) (b : B) :
  f <$> l = (f <$> l0) ++ k -> k !! i = Some b ->
  exists a, l !! (length l0 + i)%nat = Some a /\ f a = b.
Proof.
  intros E Hk.
  assert ((f <$> l) !! (length l0 + i)%nat = Some b) as H.
  { rewrite E, lookup_app_r by (rewrite length_fmap; lia).
    rewrite length_fmap. now replace (length l0 + i - length l0)%nat with i by lia. }
  apply list_lookup_fmap_Some in H as (a & Ha & ->). eauto.
Qed.

Lemma fmap_app_lookup_old {A B} (f : A -> B) (l l0 : list A) (k : list B)
      (i : nat) (a0 : A) :
  f <$> l = (f <$> l0) ++ k -> l0 !! i = Some a0 ->
  exists a, l !! i = Some a /\ f a = f a0.
Proof.
  intros E H0.
  assert ((f <$> l) !! i = Some (f a0)) as H.
  { rewrite E. apply lookup_app_l_Some. now rewrite list_lookup_fmap, H0. }
  apply list_lookup_fmap_Some in H as (a & Ha & Hf). eauto.
Qed.

(** A call either meets the precondition or stops at the assertion. *)
Lemma add_node_cases node_type input_list attribution datatype_list shape_list
      prefix suffix number (w : World) :
  args_ok datatype_list shape_list \/
  add_node node_type input_list attribution datatype_list shape_list
           prefix suffix number w = (Raise AssertionError, w).
Proof.
  destruct datatype_list as [d|l]; [now left|].
  destruct (decide (length l = length shape_list)) as [E|E]; [now left|right].
  now apply add_node_assert.
Qed.

(** ** Names created by a call *)

Lemma created_names_refl (w : World) : created_names w w = [].
Proof.
  unfold created_names.
  rewrite !drop_ge by (rewrite length_fmap; lia). reflexivity.
Qed.

Lemma add_node_created_names node_type input_list attribution datatype_list
      shape_list prefix suffix number (w : World) :
  let w' := snd (add_node node_type input_list attribution datatype_list
                          shape_list prefix suffix number w) in
  created_names w w' = [] \/
  created_names w w' =
    call_names prefix number node_type suffix (length (out_dtypes datatype_list)).
Proof.
  intros w'. subst w'.
  destruct (add_node_cases node_type input_list attribution datatype_list
              shape_list prefix suffix number w) as [Hok| ->].
  - right.
    destruct (add_node_spec node_type input_list attribution datatype_list
                shape_list prefix suffix number w Hok)
      as (w' & -> & Hg & Hn & _).
    cbn [snd]. unfold created_names. rewrite Hg, Hn. cbn [nodes].
    rewrite fmap_app, !drop_app_length' by now rewrite length_fmap.
    reflexivity.
  - left. apply created_names_refl.
Qed.

Lemma call_names_NoDup prefix number node_type suffix n_output :
  NoDup (call_names prefix number node_type suffix n_output).
Proof.
  unfold call_names. apply NoDup_cons. split.
  - intros (i & E & _)%list_elem_of_fmap. now apply node_tensor_name_ne in E.
  - apply NoDup_fmap_2_strong; [|apply NoDup_seq].
    intros i j _ _. apply tensor_name_position_inj.
Qed.

Lemma call_names_disjoint prefix number t1 s1 n1 t2 s2 n2 (x : string) :
  0 <= number ->
  x ∈ call_names prefix number t1 s1 n1 ->
  x ∉ call_names prefix (number + 1) t2 s2 n2.
Proof.
  intros Hk H1 H2. unfold call_names in *.
  apply elem_of_cons in H1 as [->|(i & -> & _)%list_elem_of_fmap];
    apply elem_of_cons in H2 as [E|(j & E & _)%list_elem_of_fmap].
  - now apply node_name_counter_ne in E.
  - now apply node_tensor_name_ne in E.
  - symmetry in E. now apply node_tensor_name_ne in E.
  - now apply tensor_name_counter_ne in E.
Qed.

(** ** The contract of [add_node] *)

(** C1: two calls in sequence with the same prefix and the counters [k] and
    [k + 1], for any operation types, suffixes and output descriptors:
    the node name and the tensor names created by the first call and those
    created by the second call are pairwise distinct. *)
Theorem add_node_names_unique
        (w : World) (prefix : string) (k : Z)
        (type1 : string) (inputs1 : list tref) (attrs1 : list (string * pyval))
        (dtypes1 : dtype_arg) (shapes1 : list pyval) (suffix1 : string)
        (type2 : string) (inputs2 : list tref) (attrs2 : list (string * pyval))
        (dtypes2 : dtype_arg) (shapes2 : list pyval) (suffix2 : string) :
  0 <= k ->
  let w1 := snd (add_node type1 inputs1 attrs1 dtypes1 shapes1 prefix suffix1 k w) in
  let w2 := snd (add_node type2 inputs2 attrs2 dtypes2 shapes2 prefix suffix2 (k + 1) w1) in
  NoDup (created_names w w1 ++ created_names w1 w2).
Proof.
  intros Hk w1 w2.
  destruct (add_node_created_names type1 inputs1 attrs1 dtypes1 shapes1
              prefix suffix1 k w) as [E1|E1];
    destruct (add_node_created_names type2 inputs2 attrs2 dtypes2 shapes2
                prefix suffix2 (k + 1) w1) as [E2|E2];
    fold w1 in E1; fold w2 in E2; rewrite E1, E2.
  - constructor.
  - apply call_names_NoDup.
  - rewrite app_nil_r. apply call_names_NoDup.
  - apply NoDup_app. split; [apply call_names_NoDup|].
    split; [|apply call_names_NoDup].
    intros x. now apply call_names_disjoint.
Qed.

Lemma add_node_names_unique_witness :
  0 <= 7 /\
  NoDup
    (created_names empty_world
       (snd (add_node "Split" [] [] (DtList [float32; float32]) [PyList []; PyList []]
                      "P" "x" 7 empty_world)) ++
     created_names
       (snd (add_node "Split" [] [] (DtList [float32; float32]) [PyList []; PyList []]
                      "P" "x" 7 empty_world))
       (snd (add_node "7-Split" [0%nat] [] (DtOne int64) [PyInt 3] "P" "" (7 + 1)
               (snd (add_node "Split" [] [] (DtList [float32; float32])
                              [PyList []; PyList []] "P" "x" 7 empty_world))))).
Proof.
  split; [lia|].
  apply (add_node_names_unique empty_world "P" 7
           "Split" [] [] (DtList [float32; float32]) [PyList []; PyList []] "x"
           "7-Split" [0%nat] [] (DtOne int64) [PyInt 3] "").
  lia.
Defined.

(** C2: when [datatype_list] and [shape_list] are lists of different
    lengths, the call raises at the assertion and leaves the world, hence
    the node sequence of the graph, as it was. *)
Theorem add_node_length_mismatch
        (w : World) (node_type : string) (input_list : list tref)
        (attribution : list (string * pyval))
        (datatype_list : list dtype) (shape_list : list pyval)
        (prefix suffix : string) (number : Z) :
  length datatype_list <> length shape_list ->
  let r := add_node node_type input_list attribution (DtList datatype_list)
                    shape_list prefix suffix number w in
  fst r = Raise AssertionError /\
  snd r = w /\
  nodes (graph (snd r)) = nodes (graph w).
Proof.
  intros Hlen r. subst r. rewrite add_node_assert by assumption.
  repeat split.
Qed.

Lemma add_node_length_mismatch_witness :
  length [float32; int64] <> length [PyList [PyInt 1]] /\
  let r := add_node "Split" [] [] (DtList [float32; int64]) [PyList [PyInt 1]]
                    "P" "" 0 empty_world in
  fst r = Raise AssertionError /\
  snd r = empty_world /\
  nodes (graph (snd r)) = nodes (graph empty_world).
Proof.
  split; [cbn; lia|].
  apply (add_node_length_mismatch empty_world "Split" [] []
           [float32; int64] [PyList [PyInt 1]] "P" "" 0).
  cbn. lia.
Defined.

(** The same effect, tensor by tensor. *)
Lemma add_node_pointwise node_type input_list attribution datatype_list shape_list
      prefix suffix number (w : World) :
  args_ok datatype_list shape_list ->
  let dl := out_dtypes datatype_list in
  let base := length (tensors w) in
  let node := mkNode node_type (node_name prefix number node_type) attribution
                     input_list (seq base (length dl)) in
  exists w',
    add_node node_type input_list attribution datatype_list shape_list
             prefix suffix number w
      = (Ret (wrap (seq base (length dl)), number + 1), w') /\
    graph w' = mkGraph (nodes (graph w) ++ [node])
                       (inputs (graph w)) (outputs (graph w)) /\
    (forall i d, dl !! i = Some d ->
       exists T s, tensors w' !! (base + i)%nat = Some T /\
         out_shapes datatype_list shape_list !! i = Some s /\
         t_name T = tensor_name prefix number node_type suffix (Z.of_nat i) /\
         t_dtype T = d /\ t_shape T = s /\ t_kind T = KVariable) /\
    (forall j T0, tensors w !! j = Some T0 ->
       exists T, tensors w' !! j = Some T /\
         t_name T = t_name T0 /\ t_dtype T = t_dtype T0 /\
         t_shape T = t_shape T0 /\ t_kind T = t_kind T0).
Proof.
  intros Hok dl base node.
  destruct (add_node_spec node_type input_list attribution datatype_list
              shape_list prefix suffix number w Hok)
    as (w' & Hrun & Hg & Hn & Hd & Hs & Hk).
  fold dl in Hn, Hd, Hk.
  exists w'. split; [exact Hrun|]. split; [exact Hg|]. split.
  - intros i d Hi.
    assert (i < length dl)%nat as Hlt by (eapply lookup_lt_Some; eassumption).
    assert (length (out_shapes datatype_list shape_list) = length dl) as Hlen.
    { destruct datatype_list; cbn in *; congruence. }
    destruct (lookup_lt_is_Some_2 (out_shapes datatype_list shape_list) i)
      as [s Hsi]; [lia|].
    destruct (fmap_app_lookup _ _ _ _ i d Hd Hi) as (T & HT & HdT).
    destruct (fmap_app_lookup _ _ _ _ i s Hs Hsi) as (T1 & HT1 & HsT).
    destruct (fmap_app_lookup _ _ _ _ i
                (tensor_name prefix number node_type suffix (Z.of_nat i)) Hn)
      as (T2 & HT2 & HnT).
    { rewrite list_lookup_fmap, lookup_seq_lt by lia. reflexivity. }
    destruct (fmap_app_lookup _ _ _ _ i KVariable Hk) as (T3 & HT3 & HkT).
    { now apply lookup_replicate_2. }
    fold base in HT, HT1, HT2, HT3.
    rewrite HT in HT1, HT2, HT3.
    injection HT1 as <-. injection HT2 as <-. injection HT3 as <-.
    exists T, s. repeat split; assumption.
  - intros j T0 Hj.
    destruct (fmap_app_lookup_old _ _ _ _ j T0 Hn Hj) as (T & HT & HnT).
    destruct (fmap_app_lookup_old _ _ _ _ j T0 Hd Hj) as (T1 & HT1 & HdT).
    destruct (fmap_app_lookup_old _ _ _ _ j T0 Hs Hj) as (T2 & HT2 & HsT).
    destruct (fmap_app_lookup_old _ _ _ _ j T0 Hk Hj) as (T3 & HT3 & HkT).
    rewrite HT in HT1, HT2, HT3.
    injection HT1 as <-. injection HT2 as <-. injection HT3 as <-.
    exists T. repeat split; assumption.
Qed.

Lemma tensor_name_format prefix number node_type suffix (i : Z) :
  let base :=
    prefix +:+ "-V-" +:+ str number +:+ "-" +:+ node_type +:+ "-" +:+ str i in
  (suffix = "" -> tensor_name prefix number node_type suffix i = base) /\
  (suffix <> "" ->
   tensor_name prefix number node_type suffix i = base +:+ "-" +:+ suffix).
Proof.
  intros base. unfold tensor_name. fold base.
  destruct suffix as [|a s]; split; intros H; try congruence.
  - reflexivity.
  - replace (0 <? Z.of_nat (String.length (String a s))) with true
      by (symmetry; apply Z.ltb_lt; simpl; lia).
    reflexivity.
Qed.

(** C3: the appended node is named [{prefix}-N-{number}-{node_type}], without
    the suffix, and the tensor at output position [i] is named
    [{prefix}-V-{number}-{node_type}-{i}], followed by [-{suffix}] exactly
    when the suffix is not empty. *)
Theorem add_node_name_format
        (w : World) (node_type : string) (input_list : list tref)
        (attribution : list (string * pyval))
        (datatype_list : dtype_arg) (shape_list : list pyval)
        (prefix suffix : string) (number : Z) :
  args_ok datatype_list shape_list ->
  exists result w' node,
    add_node node_type input_list attribution datatype_list shape_list
             prefix suffix number w = (Ret (result, number + 1), w') /\
    nodes (graph w') = nodes (graph w) ++ [node] /\
    n_name node = prefix +:+ "-N-" +:+ str number +:+ "-" +:+ node_type /\
    n_outputs node = result_tensors result /\
    length (n_outputs node) = length (out_dtypes datatype_list) /\
    forall (i : nat) (t : tref),
      n_outputs node !! i = Some t ->
      exists T, tensors w' !! t = Some T /\
        let base := prefix +:+ "-V-" +:+ str number +:+ "-" +:+ node_type
                           +:+ "-" +:+ str (Z.of_nat i) in
        (suffix = "" -> t_name T = base) /\
        (suffix <> "" -> t_name T = base +:+ "-" +:+ suffix).
Proof.
  intros Hok.
  destruct (add_node_pointwise node_type input_list attribution datatype_list
              shape_list prefix suffix number w Hok)
    as (w' & Hrun & Hg & Hnew & _).
  eexists _, w', _. split; [exact Hrun|].
  rewrite Hg. cbn [nodes n_name n_outputs]. split; [reflexivity|].
  split; [reflexivity|]. rewrite result_tensors_wrap. split; [reflexivity|].
  split; [apply length_seq|].
  intros i t [-> Hi]%lookup_seq.
  destruct (lookup_lt_is_Some_2 (out_dtypes datatype_list) i) as [d Hd]; [lia|].
  destruct (Hnew i d Hd) as (T & s & HT & _ & Hname & _).
  exists T. split; [exact HT|]. rewrite Hname. apply tensor_name_format.
Qed.

Lemma add_node_name_format_witness :
  args_ok (DtList [float32; int64]) [PyList []; PyList []] /\
  exists result w' node,
    add_node "TopK" [] [] (DtList [float32; int64]) [PyList []; PyList []]
             "P" "b" 4 empty_world = (Ret (result, 4 + 1), w') /\
    nodes (graph w') = nodes (graph empty_world) ++ [node] /\
    n_name node = "P" +:+ "-N-" +:+ str 4 +:+ "-" +:+ "TopK" /\
    n_outputs node = result_tensors result /\
    length (n_outputs node) = length (out_dtypes (DtList [float32; int64])) /\
    forall (i : nat) (t : tref),
      n_outputs node !! i = Some t ->
      exists T, tensors w' !! t = Some T /\
        let base := "P" +:+ "-V-" +:+ str 4 +:+ "-" +:+ "TopK"
                        +:+ "-" +:+ str (Z.of_nat i) in
        ("b" = "" -> t_name T = base) /\
        ("b" <> "" -> t_name T = base +:+ "-" +:+ "b").
Proof.
  split; [reflexivity|].
  apply (add_node_name_format empty_world "TopK" [] []
           (DtList [float32; int64]) [PyList []; PyList []] "P" "b" 4).
  reflexivity.
Defined.

Lemma tensor_name_0_ends prefix number node_type suffix :
  (suffix = "" ->
   ends_with (tensor_name prefix number node_type suffix 0) "-0") /\
  (suffix <> "" ->
   ends_with (tensor_name prefix number node_type suffix 0) ("-0-" +:+ suffix)).
Proof.
  split; intros Hs;
    exists (prefix +:+ "-V-" +:+ str number +:+ "-" +:+ node_type);
    rewrite tensor_name_eq, !append_assoc.
  - subst suffix. reflexivity.
  - destruct suffix as [|a s]; [congruence|reflexivity].
Qed.

(** C4: with one dtype and one shape instead of lists, the call returns one
    tensor, not a list, and the name of that tensor ends in [-0], or in
    [-0-{suffix}] when the suffix is not empty. *)
Theorem add_node_single_output
        (w : World) (node_type : string) (input_list : list tref)
        (attribution : list (string * pyval))
        (d : dtype) (shape : list pyval)
        (prefix suffix : string) (number : Z) :
  exists t T w',
    add_node node_type input_list attribution (DtOne d) shape
             prefix suffix number w = (Ret (OneOutput t, number + 1), w') /\
    tensors w' !! t = Some T /\
    t_dtype T = d /\ t_shape T = PyList shape /\
    (suffix = "" -> ends_with (t_name T) "-0") /\
    (suffix <> "" -> ends_with (t_name T) ("-0-" +:+ suffix)).
Proof.
  destruct (add_node_pointwise node_type input_list attribution (DtOne d)
              shape prefix suffix number w I)
    as (w' & Hrun & _ & Hnew & _).
  destruct (Hnew 0%nat d eq_refl) as (T & s & HT & Hs & Hname & Hd & Hsh & _).
  cbn in Hs. injection Hs as <-.
  exists (length (tensors w) + 0)%nat, T, w'.
  split; [rewrite Hrun, Nat.add_0_r; reflexivity|].
  split; [exact HT|]. split; [exact Hd|]. split; [exact Hsh|].
  rewrite Hname. apply tensor_name_0_ends.
Qed.

(** C5: with [N] dtypes and [N] shapes given as lists, the call returns [N]
    tensors whose names carry the positions [0 .. N-1], appends one node to
    the graph, and returns [number + 1]. *)
Theorem add_node_many_outputs
        (w : World) (node_type : string) (input_list : list tref)
        (attribution : list (string * pyval))
        (datatype_list : list dtype) (shape_list : list pyval)
        (prefix suffix : string) (number : Z) :
  length datatype_list = length shape_list ->
  exists result w' node,
    add_node node_type input_list attribution (DtList datatype_list) shape_list
             prefix suffix number w = (Ret (result, number + 1), w') /\
    length (result_tensors result) = length datatype_list /\
    (length datatype_list = 1%nat -> exists t, result = OneOutput t) /\
    (length datatype_list <> 1%nat -> exists l, result = ManyOutputs l) /\
    nodes (graph w') = nodes (graph w) ++ [node] /\
    n_outputs node = result_tensors result /\
    forall (i : nat) (dt : dtype),
      datatype_list !! i = Some dt ->
      exists t T s,
        result_tensors result !! i = Some t /\ tensors w' !! t = Some T /\
        shape_list !! i = Some s /\
        t_name T = prefix +:+ "-V-" +:+ str number +:+ "-" +:+ node_type
                          +:+ "-" +:+ str (Z.of_nat i) +:+ suffix_part suffix /\
        t_dtype T = dt /\ t_shape T = s.
Proof.
  intros Hlen.
  destruct (add_node_pointwise node_type input_list attribution
              (DtList datatype_list) shape_list prefix suffix number w Hlen)
    as (w' & Hrun & Hg & Hnew & _).
  cbn [out_dtypes out_shapes] in *.
  eexists _, w', _. split; [exact Hrun|].
  rewrite Hg, result_tensors_wrap. cbn [nodes n_outputs].
  split; [apply length_seq|].
  split; [|split; [|split; [reflexivity|split; [reflexivity|]]]].
  - intros ->. eexists. reflexivity.
  - intros Hne. exists (seq (length (tensors w)) (length datatype_list)).
    destruct (length datatype_list) as [|[|n]]; [reflexivity|lia|reflexivity].
  - intros i dt Hi.
    destruct (Hnew i dt Hi) as (T & s & HT & Hs & Hname & Hd & Hsh & _).
    exists (length (tensors w) + i)%nat, T, s.
    split; [apply lookup_seq_lt; eapply lookup_lt_Some; eassumption|].
    rewrite <- tensor_name_eq. repeat split; assumption.
Qed.

Lemma add_node_many_outputs_witness :
  length [float32; int64] = length [PyList []; PyList [PyInt 5]] /\
  exists result w' node,
    add_node "TopK" [] [] (DtList [float32; int64]) [PyList []; PyList [PyInt 5]]
             "P" "" 0 empty_world = (Ret (result, 0 + 1), w') /\
    length (result_tensors result) = length [float32; int64] /\
    (length [float32; int64] = 1%nat -> exists t, result = OneOutput t) /\
    (length [float32; int64] <> 1%nat -> exists l, result = ManyOutputs l) /\
    nodes (graph w') = nodes (graph empty_world) ++ [node] /\
    n_outputs node = result_tensors result /\
    forall (i : nat) (dt : dtype),
      [float32; int64] !! i = Some dt ->
      exists t T s,
        result_tensors result !! i = Some t /\ tensors w' !! t = Some T /\
        [PyList []; PyList [PyInt 5]] !! i = Some s /\
        t_name T = "P" +:+ "-V-" +:+ str 0 +:+ "-" +:+ "TopK"
                       +:+ "-" +:+ str (Z.of_nat i) +:+ suffix_part "" /\
        t_dtype T = dt /\ t_shape T = s.
Proof.
  split; [reflexivity|].
  apply (add_node_many_outputs empty_world "TopK" [] []
           [float32; int64] [PyList []; PyList [PyInt 5]] "P" "" 0).
  reflexivity.
Defined.

(** C9: a call that returns has appended one node to the node sequence of
    the graph; the declared inputs, the declared outputs and the nodes that
    were there are unchanged, and so are the name, element type and shape of
    every tensor that existed. *)
Theorem add_node_frame
        (w w' : World) (node_type : string) (input_list : list tref)
        (attribution : list (string * pyval))
        (datatype_list : dtype_arg) (shape_list : list pyval)
        (prefix suffix : string) (number : Z) (r : node_result * Z) :
  add_node node_type input_list attribution datatype_list shape_list
           prefix suffix number w = (Ret r, w') ->
  (exists node, nodes (graph w') = nodes (graph w) ++ [node]) /\
  inputs (graph w') = inputs (graph w) /\
  outputs (graph w') = outputs (graph w) /\
  forall (t : tref) (T0 : GsTensor),
    tensors w !! t = Some T0 ->
    exists T, tensors w' !! t = Some T /\
      t_name T = t_name T0 /\ t_dtype T = t_dtype T0 /\
      t_shape T = t_shape T0 /\ t_kind T = t_kind T0.
Proof.
  intros Hrun.
  destruct (add_node_cases node_type input_list attribution datatype_list
              shape_list prefix suffix number w) as [Hok|Hfail];
    [|rewrite Hfail in Hrun; discriminate].
  destruct (add_node_pointwise node_type input_list attribution datatype_list
              shape_list prefix suffix number w Hok)
    as (w1 & Hrun1 & Hg & _ & Hold).
  rewrite Hrun in Hrun1. injection Hrun1 as _ <-.
  rewrite Hg. cbn [nodes inputs outputs].
  split; [eexists; reflexivity|]. repeat split. exact Hold.
Qed.

Lemma add_node_frame_witness :
  let run := add_node "Relu" [0%nat] [] (DtOne float32) [PyInt 2] "P" "s" 3
                      frame_world in
  run = (Ret (OneOutput 1%nat, 4), snd run) /\
  ((exists node, nodes (graph (snd run)) = nodes (graph frame_world) ++ [node]) /\
   inputs (graph (snd run)) = inputs (graph frame_world) /\
   outputs (graph (snd run)) = outputs (graph frame_world) /\
   forall (t : tref) (T0 : GsTensor),
     tensors frame_world !! t = Some T0 ->
     exists T, tensors (snd run) !! t = Some T /\
       t_name T = t_name T0 /\ t_dtype T = t_dtype T0 /\
       t_shape T = t_shape T0 /\ t_kind T = t_kind T0).
Proof.
  intros run. split; [reflexivity|].
  apply (add_node_frame frame_world (snd run) "Relu" [0%nat] [] (DtOne float32)
           [PyInt 2] "P" "s" 3 (OneOutput 1%nat, 4)).
  reflexivity.
Defined.

(** ** [find_son_node] *)

Lemma son_loop_spec (condition : GsNode -> bool) (subNodes : list GsNode) :
  match son_loop condition subNodes with
  | Some n =>
      exists before after,
        subNodes = before ++ n :: after /\ condition n = true /\
        Forall (fun m => condition m = false) before
  | None => Forall (fun m => condition m = false) subNodes
  end.
Proof.
  induction subNodes as [|m rest IH]; cbn [son_loop]; [constructor|].
  destruct (condition m) eqn:Hm.
  - exists [], rest. repeat split; [assumption|constructor].
  - destruct (son_loop condition rest) as [n|].
    + destruct IH as (before & after & -> & Hn & Hb).
      exists (m :: before), after. repeat split; [assumption|now constructor].
    + now constructor.
Qed.

(** C10: [find_son_node] returns the first consumer of the tensor, in the
    order of its consumer list, that satisfies the predicate, and [None]
    when no consumer does; the tensor and the graph are left as they were. *)
Theorem find_son_node_first
        (w : World) (tensor : tref) (T : GsTensor)
        (condition : World -> GsNode -> bool) :
  tensors w !! tensor = Some T ->
  exists r,
    find_son_node tensor condition w = (Ret r, w) /\
    match r with
    | Some n =>
        exists before after,
          t_outputs T = before ++ n :: after /\ condition w n = true /\
          Forall (fun m => condition w m = false) before
    | None => Forall (fun m => condition w m = false) (t_outputs T)
    end.
Proof.
  intros HT. unfold find_son_node. rewrite HT.
  eexists. split; [reflexivity|]. apply son_loop_spec.
Qed.

Lemma find_son_node_first_witness :
  tensors son_world !! 0%nat = Some son_tensor /\
  exists r,
    find_son_node 0%nat is_conv son_world = (Ret r, son_world) /\
    match r with
    | Some n =>
        exists before after,
          t_outputs son_tensor = before ++ n :: after /\
          is_conv son_world n = true /\
          Forall (fun m => is_conv son_world m = false) before
    | None => Forall (fun m => is_conv son_world m = false) (t_outputs son_tensor)
    end.
Proof.
  split; [reflexivity|].
  apply (find_son_node_first son_world 0%nat son_tensor is_conv).
  reflexivity.
Defined.

(** ** Outcomes of [mark_graph_output] *)

Lemma yields_ret {A} (Q : A -> Prop) P (a : A) : Q a -> yields Q P (ret a).
Proof. intros H w. exact H. Qed.

Lemma yields_raise {A} (Q : A -> Prop) (P : exn -> Prop) e :
  P e -> yields Q P (@raise A e).
Proof. intros H w. exact H. Qed.

Lemma yields_bind {A B} (Q1 : A -> Prop) (Q : B -> Prop) P
      (m : M A) (k : A -> M B) :
  yields Q1 P m -> (forall a, Q1 a -> yields Q P (k a)) -> yields Q P (bind m k).
Proof.
  intros Hm Hk w. unfold bind. specialize (Hm w).
  destruct (m w) as [[a|e] w1]; cbn in *; [now apply Hk|assumption].
Qed.

Lemma yields_weaken {A} (Q Q' : A -> Prop) (P P' : exn -> Prop) (m : M A) :
  (forall a, Q a -> Q' a) -> (forall e, P e -> P' e) ->
  yields Q P m -> yields Q' P' m.
Proof.
  intros HQ HP Hm w. specialize (Hm w).
  destruct (fst (m w)); auto.
Qed.

Lemma py_index_yields {A} (l : list A) (i : Z) :
  yields any mark_error (py_index l i).
Proof.
  intros w. unfold py_index.
  destruct (_ <? 0); [now left|]. destruct (l !! _); [exact I|now left].
Qed.

Lemma set_dtype_yields (t : tref) (d : dtype) :
  yields any mark_error (set_dtype t d).
Proof.
  intros w. unfold set_dtype. destruct (is_constant w t); [now right|exact I].
Qed.

Lemma mark_output_loop_yields node idx :
  yields any mark_error (mark_output_loop node idx).
Proof.
  induction idx as [|i idx IH]; cbn [mark_output_loop]; [now apply yields_ret|].
  eapply yields_bind; [apply py_index_yields|]. intros t _.
  eapply (yields_bind any); [now intros w|]. intros _ _.
  eapply yields_bind; [apply py_index_yields|]. intros t' _.
  eapply yields_bind; [apply set_dtype_yields|]. intros _ _. exact IH.
Qed.

Lemma mark_input_loop_yields node idx :
  yields any mark_error (mark_input_loop node idx).
Proof.
  induction idx as [|i idx IH]; cbn [mark_input_loop]; [now apply yields_ret|].
  eapply yields_bind; [apply py_index_yields|]. intros t _.
  eapply (yields_bind any); [now intros w|]. intros _ _. exact IH.
Qed.

Lemma mark_loop_yields lNode bMarkOutput bMarkInput ns lMarkOutput lMarkInput :
  yields any mark_error
         (mark_loop lNode bMarkOutput bMarkInput ns lMarkOutput lMarkInput).
Proof.
  revert lMarkOutput lMarkInput.
  induction ns as [|node rest IH]; intros lMarkOutput lMarkInput;
    cbn [mark_loop]; [now apply yields_ret|].
  destruct (bool_decide _); [|apply IH].
  eapply (yields_bind any).
  { destruct bMarkOutput; [|now apply yields_ret].
    eapply yields_bind; [apply mark_output_loop_yields|].
    intros _ _. now apply yields_ret. }
  intros lMarkOutput' _.
  eapply (yields_bind any).
  { destruct bMarkInput; [|now apply yields_ret].
    eapply yields_bind; [apply mark_input_loop_yields|].
    intros _ _. now apply yields_ret. }
  intros lMarkInput' _. apply IH.
Qed.

Lemma graph_toposort_yields :
  yields any (fun e => e = GraphCycle) graph_toposort.
Proof. intros w. unfold graph_toposort. destruct (toposort _); reflexivity. Qed.

Lemma mark_graph_output_yields lNode bMarkOutput bMarkInput
      lMarkOutput lMarkInput bRemoveOldOutput :
  yields (fun v => v = len lNode)
         (fun e => mark_error e \/ e = GraphCycle)
         (mark_graph_output lNode bMarkOutput bMarkInput
                            lMarkOutput lMarkInput bRemoveOldOutput).
Proof.
  unfold mark_graph_output.
  eapply (yields_bind any); [destruct bRemoveOldOutput; now intros w0|].
  intros _ _. eapply (yields_bind any); [now intros w0|]. intros w0 _.
  eapply (yields_bind any).
  { eapply yields_weaken; [| |apply mark_loop_yields]; [auto|now left]. }
  intros _ _. eapply (yields_bind any); [now intros w1|]. intros _ _.
  eapply (yields_bind any).
  { eapply yields_weaken; [| |apply graph_toposort_yields]; [auto|now right]. }
  intros _ _. now apply yields_ret.
Qed.

(** ** The library passes *)

Lemma bind_ret_after {A B} (m : M A) (b : B) (w : World) :
  fst (bind m (fun _ => ret b) w) =
    match fst (m w) with Ret _ => Ret b | Raise e => Raise e end /\
  snd (bind m (fun _ => ret b) w) = snd (m w).
Proof. unfold bind. destruct (m w) as [[a|e] w']; split; reflexivity. Qed.

Lemma cleanup_links_attrs (g : Graph) (ts : list GsTensor) :
  tensor_attrs <$> cleanup_links g ts = tensor_attrs <$> ts.
Proof.
  unfold cleanup_links. apply list_eq. intros i.
  rewrite !list_lookup_fmap, list_lookup_imap.
  destruct (ts !! i); reflexivity.
Qed.

Lemma attrs_lookup (ts ts' : list GsTensor) (t : tref) (T : GsTensor) :
  tensor_attrs <$> ts' = tensor_attrs <$> ts -> ts !! t = Some T ->
  exists T', ts' !! t = Some T' /\ tensor_attrs T' = tensor_attrs T.
Proof.
  intros E HT.
  assert ((tensor_attrs <$> ts') !! t = Some (tensor_attrs T)) as H
      by now rewrite E, list_lookup_fmap, HT.
  apply list_lookup_fmap_Some in H as (T' & HT' & Ha). eauto.
Qed.

(** The two passes change no tensor apart from its links, and leave the
    declared inputs and outputs of the graph as they are; only the sort can
    fail. *)
Lemma cleanup_toposort_frame (w : World) :
  let r := (graph_cleanup ;;; graph_toposort) w in
  (fst r = Ret tt \/ fst r = Raise GraphCycle) /\
  tensor_attrs <$> tensors (snd r) = tensor_attrs <$> tensors w /\
  inputs (graph (snd r)) = inputs (graph w) /\
  outputs (graph (snd r)) = outputs (graph w).
Proof.
  unfold bind, graph_cleanup, graph_toposort. cbn [tensors graph].
  destruct (toposort _); cbn [fst snd tensors graph inputs outputs cleanup];
    rewrite cleanup_links_attrs; auto.
Qed.

Lemma Forall_list_filter {A} (P : A -> Prop) (keep : A -> bool) (l : list A) :
  Forall P l -> Forall P (List.filter keep l).
Proof.
  induction 1 as [|a l Ha _ IH]; cbn [List.filter]; [constructor|].
  destruct (keep a); [now constructor|exact IH].
Qed.

Lemma ordered_filter (keep : GsNode -> bool) (ns : list GsNode) :
  ordered ns -> ordered (List.filter keep ns).
Proof.
  induction ns as [|n ns IH]; [auto|]. intros [Hn Hrest].
  cbn [List.filter]. destruct (keep n) eqn:E; [|now apply IH].
  split; [|now apply IH].
  replace (n :: List.filter keep ns) with (List.filter keep (n :: ns))
    by (cbn [List.filter]; now rewrite E).
  now apply Forall_list_filter.
Qed.

Lemma produces_for_strip (ins : list tref) (n m : GsNode) :
  produces_for n m = false ->
  produces_for (strip_outputs ins n) (strip_outputs ins m) = false.
Proof.
  unfold produces_for. cbn [strip_outputs n_inputs n_outputs].
  induction (n_inputs n) as [|t l IH]; [reflexivity|].
  cbn [existsb]. intros [Ht Hl]%orb_false_iff.
  rewrite IH by exact Hl. rewrite orb_false_r.
  apply bool_decide_eq_false_2. apply bool_decide_eq_false in Ht.
  intros Hin%list_elem_of_In%filter_In. apply Ht, list_elem_of_In. tauto.
Qed.

Lemma ordered_strip (ins : list tref) (ns : list GsNode) :
  ordered ns -> ordered (strip_outputs ins <$> ns).
Proof.
  induction ns as [|n ns IH]; [auto|]. intros [Hn Hrest].
  rewrite fmap_cons. split; [|now apply IH].
  rewrite <- fmap_cons. apply Forall_fmap.
  eapply Forall_impl; [exact Hn|].
  intros m Hm. now apply produces_for_strip.
Qed.

Lemma cleanup_ordered (g : Graph) : ordered (nodes g) -> ordered (nodes (cleanup g)).
Proof. intros H. cbn [cleanup nodes]. now apply ordered_filter, ordered_strip. Qed.

Lemma ordered_split (l1 : list GsNode) (n : GsNode) (l2 : list GsNode) :
  ordered (l1 ++ n :: l2) -> Forall (fun m => produces_for n m = false) (n :: l2).
Proof. induction l1 as [|a l1 IH]; cbn [app ordered]; intros [H1 H2]; auto. Qed.

(** In a list that is in dependency order the producers of a node come
    before it, so the level of the node at position [i] is found with
    [i + 1] units of fuel. *)
Lemma ordered_level (ns : list GsNode) :
  ordered ns ->
  forall (k : nat) (n : GsNode), n ∈ take k ns -> is_Some (level k ns n).
Proof.
  intros Hord. induction k as [|k IH]; intros n Hn.
  - rewrite take_0 in Hn. now apply elem_of_nil in Hn.
  - apply elem_of_take in Hn as (i & Hi & Hlt). cbn [level].
    assert (is_Some (mapM (level k ns) (producers ns n))) as [ls ->];
      [|eexists; reflexivity].
    apply mapM_is_Some, Forall_forall. intros m Hm. unfold compose.
    unfold producers in Hm. apply list_elem_of_In, filter_In in Hm as [Hm Hp].
    apply list_elem_of_In in Hm. apply IH.
    pose proof (take_drop_middle ns i n Hi) as Hsplit.
    assert (ordered (take i ns ++ n :: drop (S i) ns)) as Ho by now rewrite Hsplit.
    apply ordered_split in Ho.
    assert (m ∈ take i ns ++ n :: drop (S i) ns) as Hm' by now rewrite Hsplit.
    apply elem_of_app in Hm' as [Hm'|Hm'].
    + apply elem_of_take in Hm' as (j & Hj & Hji).
      apply elem_of_take. exists j. split; [exact Hj|lia].
    + exfalso. rewrite Forall_forall in Ho. specialize (Ho m Hm').
      unfold produces_for in Ho. cbv beta in Hp. congruence.
Qed.

Lemma ordered_toposort (ns : list GsNode) : ordered ns -> is_Some (toposort ns).
Proof.
  intros Hord. unfold toposort.
  assert (is_Some (mapM (fun n => match level (S (length ns)) ns n with
                                  | Some l => Some (l, n)
                                  | None => None
                                  end) ns)) as [keyed ->];
    [|eexists; reflexivity].
  apply mapM_is_Some, Forall_forall. intros n Hn. unfold compose.
  destruct (ordered_level ns Hord (S (length ns)) n) as [l ->];
    [|eexists; reflexivity].
  rewrite take_ge by lia. exact Hn.
Qed.

(** On a graph whose node list is in dependency order the two passes do not
    raise. *)
Lemma cleanup_toposort_ordered (w : World) :
  ordered (nodes (graph w)) ->
  fst ((graph_cleanup ;;; graph_toposort) w) = Ret tt.
Proof.
  intros H. unfold bind, graph_cleanup, graph_toposort. cbn [graph].
  destruct (ordered_toposort _ (cleanup_ordered _ H)) as [ns ->]. reflexivity.
Qed.

(** ** Variables and constants *)

Lemma is_constant_kinds (w w' : World) (t : tref) :
  t_kind <$> tensors w' = t_kind <$> tensors w ->
  is_constant w' t = is_constant w t.
Proof.
  intros E. unfold is_constant.
  assert ((t_kind <$> tensors w') !! t = (t_kind <$> tensors w) !! t) as H
      by now rewrite E.
  rewrite !list_lookup_fmap in H.
  destruct (tensors w' !! t), (tensors w !! t); cbn in H;
    try discriminate; [|reflexivity].
  injection H as ->. reflexivity.
Qed.

Lemma variables_only_kinds (w w' : World) (l : list tref) :
  t_kind <$> tensors w' = t_kind <$> tensors w ->
  variables_only w l -> variables_only w' l.
Proof.
  intros E H. eapply Forall_impl; [exact H|].
  intros t Ht. cbn. now rewrite (is_constant_kinds w w' t E).
Qed.

Lemma kinds_coerce_all (sel : list tref) (ts : list GsTensor) :
  t_kind <$> coerce_all sel ts = t_kind <$> ts.
Proof. now apply foldl_alter_fmap. Qed.

Lemma set_dtype_variable (t : tref) (d : dtype) (w : World) :
  is_constant w t = false ->
  set_dtype t d w = (Ret tt, mkWorld (alter (with_dtype d) t (tensors w)) (graph w)).
Proof. intros H. unfold set_dtype. now rewrite H. Qed.

Lemma is_constant_variable (w : World) (t : tref) (T : GsTensor) :
  is_constant w t = false -> tensors w !! t = Some T -> t_kind T = KVariable.
Proof.
  unfold is_constant. intros H HT. rewrite HT in H.
  destruct (t_kind T); [reflexivity|discriminate].
Qed.

(** ** The marking loops as functions of the index lists *)

Lemma py_index_get {A} (l : list A) (i : Z) (w : World) :
  py_index l i w =
  match py_get l i with
  | Some a => (Ret a, w)
  | None => (Raise IndexError, w)
  end.
Proof.
  unfold py_index, py_get. destruct (_ <? 0); [reflexivity|].
  destruct (l !! _); reflexivity.
Qed.

Lemma py_get_nat {A} (l : list A) (i : nat) : py_get l (Z.of_nat i) = l !! i.
Proof.
  unfold py_get.
  destruct (Z.ltb_spec (Z.of_nat i) 0) as [?|_]; [lia|].
  destruct (Z.ltb_spec (Z.of_nat i) 0) as [?|_]; [lia|].
  now rewrite Nat2Z.id.
Qed.

Lemma seq_lookup_Forall2 {A} (l : list A) :
  Forall2 (fun i a => l !! i = Some a) (seq 0 (length l)) l.
Proof.
  apply Forall2_same_length_lookup_2; [apply length_seq|].
  intros i j a [-> _]%lookup_seq Ha. exact Ha.
Qed.

Lemma py_gets_Forall2 {A} (l : list A) (idx : list nat) (sel : list A) :
  Forall2 (fun i a => l !! i = Some a) idx sel ->
  py_gets l (Z.of_nat <$> idx) = sel /\ py_all_ok l (Z.of_nat <$> idx) = true.
Proof.
  induction 1 as [|i t idx sel Hi _ [IH1 IH2]]; [now split|].
  cbn [fmap list_fmap py_gets py_all_ok]. rewrite py_get_nat, Hi.
  split; [now f_equal|exact IH2].
Qed.

Lemma py_gets_range {A} (l : list A) :
  py_gets l (range (length l)) = l /\ py_all_ok l (range (length l)) = true.
Proof. apply py_gets_Forall2, seq_lookup_Forall2. Qed.

(** The loop over the outputs marks the tensors up to the first index out
    of range, provided none of them is a constant. *)
Lemma mark_output_loop_run (node : GsNode) (idx : list Z) (w : World) :
  variables_only w (py_gets (n_outputs node) idx) ->
  mark_output_loop node idx w =
  ((if py_all_ok (n_outputs node) idx then Ret tt else Raise IndexError),
   mkWorld (coerce_all (py_gets (n_outputs node) idx) (tensors w))
           (mkGraph (nodes (graph w)) (inputs (graph w))
                    (outputs (graph w) ++ py_gets (n_outputs node) idx))).
Proof.
  revert w. induction idx as [|i idx IH]; intros w Hv.
  - cbn. now rewrite app_nil_r, graph_eta, world_eta.
  - cbn [mark_output_loop py_all_ok py_gets] in *. unfold bind at 1.
    rewrite py_index_get. destruct (py_get (n_outputs node) i) as [t|] eqn:E.
    + pose proof (Forall_inv Hv) as Ht. apply Forall_inv_tail in Hv.
      unfold bind at 1, graph_outputs_append at 1. unfold bind at 1.
      rewrite py_index_get, E.
      unfold bind at 1. rewrite set_dtype_variable by exact Ht.
      rewrite IH.
      * cbn [tensors graph nodes inputs outputs coerce_all foldl].
        now rewrite <- app_assoc.
      * eapply variables_only_kinds; [|exact Hv]. cbn [tensors].
        now apply (foldl_alter_fmap t_kind (with_dtype float32) [t]).
    + cbn. now rewrite app_nil_r, graph_eta, world_eta.
Qed.

Lemma mark_input_loop_run (node : GsNode) (idx : list Z) (w : World) :
  mark_input_loop node idx w =
  ((if py_all_ok (n_inputs node) idx then Ret tt else Raise IndexError),
   mkWorld (tensors w)
           (mkGraph (nodes (graph w)) (inputs (graph w))
                    (outputs (graph w) ++ py_gets (n_inputs node) idx))).
Proof.
  revert w. induction idx as [|i idx IH]; intros w.
  - cbn. now rewrite app_nil_r, graph_eta, world_eta.
  - cbn [mark_input_loop py_all_ok py_gets]. unfold bind at 1.
    rewrite py_index_get. destruct (py_get (n_inputs node) i) as [t|] eqn:E.
    + unfold bind at 1, graph_outputs_append at 1. rewrite IH.
      cbn [tensors graph nodes inputs outputs].
      now rewrite <- app_assoc.
    + cbn. now rewrite app_nil_r, graph_eta, world_eta.
Qed.

Lemma mark_loop_skip lNode bMarkOutput bMarkInput before rest
      lMarkOutput lMarkInput (w : World) :
  Forall (fun m => n_name m ∉ lNode) before ->
  mark_loop lNode bMarkOutput bMarkInput (before ++ rest) lMarkOutput lMarkInput w
  = mark_loop lNode bMarkOutput bMarkInput rest lMarkOutput lMarkInput w.
Proof.
  induction 1 as [|m before Hm _ IH]; [reflexivity|].
  cbn [app mark_loop]. now rewrite bool_decide_eq_false_2.
Qed.

Lemma mark_loop_skip_all lNode bMarkOutput bMarkInput ns
      lMarkOutput lMarkInput (w : World) :
  Forall (fun m => n_name m ∉ lNode) ns ->
  mark_loop lNode bMarkOutput bMarkInput ns lMarkOutput lMarkInput w = (Ret tt, w).
Proof.
  intros H. replace ns with (ns ++ []) by apply app_nil_r.
  now rewrite mark_loop_skip.
Qed.

(** The body of the loop over the nodes, for a node all of whose outputs and
    inputs are selected. *)
Lemma mark_node_all (node : GsNode) (bMarkOutput bMarkInput : bool)
      (lo li : option (list Z))
      (K : option (list Z) -> option (list Z) -> M unit) (w : World) :
  (bMarkOutput = true -> variables_only w (n_outputs node)) ->
  let so := if bMarkOutput then n_outputs node else [] in
  let si := if bMarkInput then n_inputs node else [] in
  (lo1 <- (if bMarkOutput
           then mark_output_loop node (range (length (n_outputs node))) ;;;
                ret (Some (range (length (n_outputs node))))
           else ret lo) ;;
   li1 <- (if bMarkInput
           then mark_input_loop node (range (length (n_inputs node))) ;;;
                ret (Some (range (length (n_inputs node))))
           else ret li) ;;
   K lo1 li1) w
  = K (if bMarkOutput then Some (range (length (n_outputs node))) else lo)
      (if bMarkInput then Some (range (length (n_inputs node))) else li)
      (mkWorld (coerce_all so (tensors w))
               (mkGraph (nodes (graph w)) (inputs (graph w))
                        (outputs (graph w) ++ so ++ si))).
Proof.
  intros Hv so si. subst so si.
  destruct (py_gets_range (n_outputs node)) as [Hgo Hoo].
  destruct (py_gets_range (n_inputs node)) as [Hgi Hoi].
  destruct bMarkOutput, bMarkInput; unfold bind, ret.
  - rewrite mark_output_loop_run by (rewrite Hgo; auto).
    rewrite Hgo, Hoo, mark_input_loop_run, Hgi, Hoi.
    cbn [tensors graph nodes inputs outputs]. now rewrite <- app_assoc.
  - rewrite mark_output_loop_run by (rewrite Hgo; auto).
    rewrite Hgo, Hoo. now rewrite app_nil_r.
  - rewrite mark_input_loop_run, Hgi, Hoi. reflexivity.
  - cbn [coerce_all foldl app]. now rewrite app_nil_r, graph_eta, world_eta.
Qed.

Lemma many_names (lNode : list string) (x : string) :
  x ∈ lNode -> len lNode <> 1 -> (1 <? len lNode) = true.
Proof.
  destruct lNode as [|a [|b l]]; intros Hin Hne.
  - now apply elem_of_nil in Hin.
  - now contradict Hne.
  - apply Z.ltb_lt. unfold len. cbn [length]. lia.
Qed.

Lemma one_name_rest (lNode : list string) (node : GsNode) (rest : list GsNode) :
  len lNode = 1 -> n_name node ∈ lNode -> NoDup (n_name <$> node :: rest) ->
  Forall (fun m => n_name m ∉ lNode) rest.
Proof.
  destruct lNode as [|a [|b l]]; unfold len; cbn [length]; intros H1 Hin Hnd;
    try lia.
  apply list_elem_of_singleton in Hin.
  rewrite fmap_cons in Hnd. apply NoDup_cons in Hnd as [Hnot _].
  apply Forall_forall. intros m Hm Hin'%list_elem_of_singleton.
  apply Hnot. rewrite Hin, <- Hin'. now apply list_elem_of_fmap_2.
Qed.

(** The loop over the nodes returns when no constant is among the outputs to
    mark and, in the case of one name, no index list is given and at most
    one node bears the name. *)
Lemma mark_loop_returns (lNode : list string) (bMarkOutput bMarkInput : bool)
      (ns : list GsNode) (lo li : option (list Z)) (w : World) :
  (bMarkOutput = true ->
   Forall (fun n => n_name n ∈ lNode -> variables_only w (n_outputs n)) ns) ->
  (len lNode = 1 -> lo = None /\ li = None /\ NoDup (n_name <$> ns)) ->
  exists w1,
    mark_loop lNode bMarkOutput bMarkInput ns lo li w = (Ret tt, w1) /\
    nodes (graph w1) = nodes (graph w) /\
    t_kind <$> tensors w1 = t_kind <$> tensors w.
Proof.
  revert lo li w. induction ns as [|node rest IH]; intros lo li w Hv Hone.
  - exists w. auto.
  - cbn [mark_loop].
    assert (bMarkOutput = true ->
            Forall (fun n => n_name n ∈ lNode -> variables_only w (n_outputs n))
                   rest) as Hv_rest.
    { intros Hb. specialize (Hv Hb). now apply Forall_inv_tail in Hv. }
    destruct (bool_decide (n_name node ∈ lNode)) eqn:Hm.
    + apply bool_decide_eq_true in Hm.
      assert (is_None lo || (1 <? len lNode) = true /\
              is_None li || (1 <? len lNode) = true) as [Hco Hci].
      { destruct (decide (len lNode = 1)) as [H1|H1].
        - destruct (Hone H1) as (-> & -> & _). now split.
        - rewrite (many_names lNode _ Hm H1), !orb_true_r. now split. }
      rewrite Hco, Hci. cbv beta iota zeta.
      rewrite (mark_node_all node bMarkOutput bMarkInput lo li
                 (mark_loop lNode bMarkOutput bMarkInput rest) w)
        by (intros Hb; specialize (Hv Hb); apply Forall_inv in Hv; now apply Hv).
      set (lo' := if bMarkOutput then _ else lo).
      set (li' := if bMarkInput then _ else li).
      set (w' := mkWorld _ _).
      assert (t_kind <$> tensors w' = t_kind <$> tensors w) as Hk'
          by apply kinds_coerce_all.
      destruct (decide (len lNode = 1)) as [H1|H1].
      * destruct (Hone H1) as (_ & _ & Hnd).
        exists w'. split; [|split; [reflexivity|exact Hk']].
        apply mark_loop_skip_all. now apply (one_name_rest lNode node).
      * destruct (IH lo' li' w') as (w1 & Hrun & Hn & Hk).
        -- intros Hb. eapply Forall_impl; [exact (Hv_rest Hb)|].
           intros m Hmm Hin. eapply variables_only_kinds; [exact Hk'|now apply Hmm].
        -- intros H. contradiction.
        -- exists w1. split; [exact Hrun|]. split; [exact Hn|now rewrite Hk].
    + apply IH; [exact Hv_rest|]. intros H1.
      destruct (Hone H1) as (-> & -> & Hnd). repeat split.
      rewrite fmap_cons in Hnd. now apply NoDup_cons in Hnd as [_ ?].
Qed.

(** The start of [mark_graph_output]: the outputs to keep. *)
Lemma mark_graph_output_start (bRemoveOldOutput : bool) (k : unit -> M Z)
      (w : World) :
  bind (if bRemoveOldOutput then set_graph_outputs [] else ret tt) k w
  = k tt (mkWorld (tensors w)
                  (mkGraph (nodes (graph w)) (inputs (graph w))
                           (kept_outputs bRemoveOldOutput w))).
Proof.
  unfold bind, kept_outputs. destruct bRemoveOldOutput; cbn; [reflexivity|].
  now rewrite graph_eta, world_eta.
Qed.

(** C6: a call of [mark_graph_output] returns [len(lNode)], the number of
    names asked for, and not the number of names found.  First, whatever the
    arguments and the graph, the value of a call that returns is
    [len(lNode)], and a call that does not return raises [IndexError] (an
    index out of range), [AttributeError] (an output to mark is a constant)
    or fails in the library's sort.  Second, the call does return
    [len(lNode)], however many of the names match, on a graph whose node
    list is in dependency order, when no output to mark is a constant and,
    in the case of one name, no index list is given and the node names of
    the graph are distinct. *)
Theorem mark_graph_output_returns_len
        (w : World) (lNode : list string) (bMarkOutput bMarkInput : bool)
        (lMarkOutput lMarkInput : option (list Z)) (bRemoveOldOutput : bool) :
  let r := fst (mark_graph_output lNode bMarkOutput bMarkInput
                                  lMarkOutput lMarkInput bRemoveOldOutput w) in
  (r = Ret (len lNode) \/ r = Raise IndexError \/ r = Raise AttributeError \/
   r = Raise GraphCycle) /\
  (ordered (nodes (graph w)) ->
   (bMarkOutput = true ->
    Forall (fun n => n_name n ∈ lNode -> variables_only w (n_outputs n))
           (nodes (graph w))) ->
   (len lNode = 1 ->
    lMarkOutput = None /\ lMarkInput = None /\
    NoDup (n_name <$> nodes (graph w))) ->
   r = Ret (len lNode)).
Proof.
  intros r. subst r. split.
  - pose proof (mark_graph_output_yields lNode bMarkOutput bMarkInput
                  lMarkOutput lMarkInput bRemoveOldOutput w) as H.
    destruct (fst (mark_graph_output _ _ _ _ _ _ w)) as [v|e].
    + left. now f_equal.
    + destruct H as [[-> | ->] | ->]; auto.
  - intros Hord Hv Hone.
    set (w0 := mkWorld (tensors w)
                       (mkGraph (nodes (graph w)) (inputs (graph w))
                                (kept_outputs bRemoveOldOutput w))).
    destruct (mark_loop_returns lNode bMarkOutput bMarkInput (nodes (graph w))
                lMarkOutput lMarkInput w0 Hv Hone) as (w1 & Hrun & Hn & _).
    assert (mark_graph_output lNode bMarkOutput bMarkInput
                              lMarkOutput lMarkInput bRemoveOldOutput w
            = bind (graph_cleanup ;;; graph_toposort)
                   (fun _ => ret (len lNode)) w1) as ->.
    { unfold mark_graph_output. rewrite mark_graph_output_start. fold w0.
      unfold bind at 1, get_world at 1.
      change (nodes (graph w0)) with (nodes (graph w)).
      unfold bind at 1. rewrite Hrun. reflexivity. }
    destruct (bind_ret_after (graph_cleanup ;;; graph_toposort) (len lNode) w1)
      as [-> _].
    rewrite cleanup_toposort_ordered; [reflexivity|].
    rewrite Hn. exact Hord.
Qed.

Lemma mark_graph_output_returns_len_witness :
  (ordered (nodes (graph conv_world)) /\
   (true = true ->
    Forall (fun n => n_name n ∈ ["Relu"] -> variables_only conv_world (n_outputs n))
           (nodes (graph conv_world))) /\
   (len ["Relu"] = 1 ->
    None = (None : option (list Z)) /\ None = (None : option (list Z)) /\
    NoDup (n_name <$> nodes (graph conv_world)))) /\
  fst (mark_graph_output ["Relu"] true true None None false conv_world)
  = Ret (len ["Relu"]).
Proof.
  assert (ordered (nodes (graph conv_world))) as Hord
      by (cbn; repeat split; repeat constructor).
  assert (true = true ->
          Forall (fun n => n_name n ∈ ["Relu"] ->
                           variables_only conv_world (n_outputs n))
                 (nodes (graph conv_world))) as Hv
      by (intros _; repeat constructor).
  assert (len ["Relu"] = 1 ->
          None = (None : option (list Z)) /\ None = (None : option (list Z)) /\
          NoDup (n_name <$> nodes (graph conv_world))) as Hone.
  { intros _. repeat split.
    apply (bool_decide_unpack (NoDup (n_name <$> nodes (graph conv_world)))).
    vm_compute. exact I. }
  split; [split; [exact Hord|split; [exact Hv|exact Hone]]|].
  exact (proj2 (mark_graph_output_returns_len conv_world ["Relu"] true true
                  None None false) Hord Hv Hone).
Defined.

Example mark_graph_output_no_match :
  fst (mark_graph_output ["a"; "b"; "c"] true false None None true son_world)
  = Ret 3.
Proof. reflexivity. Qed.

Example mark_graph_output_bad_index :
  fst (mark_graph_output ["n1"] true false (Some [5]) None true son_world)
  = Raise IndexError.
Proof. reflexivity. Qed.

(** The element type of a constant cannot be assigned: the call stops at the
    first constant among the outputs to mark, which is a graph output by
    then. *)
Example mark_graph_output_constant :
  let r := mark_graph_output ["Conv"] true false None None true const_world in
  fst r = Raise AttributeError /\
  outputs (graph (snd r)) = [1%nat] /\
  t_dtype <$> tensors (snd r) = [float32; int64].
Proof. repeat split. Qed.

(** With one name asked for, the index range computed for the first match is
    kept for the later ones; with several names it is computed per node. *)
Example mark_graph_output_rebinding :
  fst (mark_graph_output ["n"] true false None None true twin_world)
  = Raise IndexError /\
  fst (mark_graph_output ["n"; "m"] true false None None true twin_world)
  = Ret 2.
Proof. split; reflexivity. Qed.

(** ** Marking the outputs of one node *)

Lemma with_dtype_idemp d T : with_dtype d (with_dtype d T) = with_dtype d T.
Proof. reflexivity. Qed.

Lemma coerce_all_lookup (sel : list tref) (ts : list GsTensor) (t : tref) T :
  ts !! t = Some T ->
  coerce_all sel ts !! t =
  Some (if decide (t ∈ sel) then with_dtype float32 T else T).
Proof.
  revert ts T. induction sel as [|t0 sel IH]; intros ts T HT.
  - cbn. rewrite HT. reflexivity.
  - cbn [coerce_all foldl]. fold (coerce_all sel (alter (with_dtype float32) t0 ts)).
    destruct (decide (t0 = t)) as [->|Hne].
    + rewrite (IH (alter (with_dtype float32) t ts) (with_dtype float32 T))
        by (rewrite list_lookup_alter_eq, HT; reflexivity).
      rewrite with_dtype_idemp.
      rewrite (decide_True (P := t ∈ t :: sel)) by apply list_elem_of_here.
      now destruct (decide (t ∈ sel)).
    + rewrite (IH (alter (with_dtype float32) t0 ts) T)
        by (rewrite list_lookup_alter_ne by exact Hne; exact HT).
      destruct (decide (t ∈ sel)) as [Hin|Hin].
      * now rewrite decide_True by now apply list_elem_of_further.
      * rewrite decide_False; [reflexivity|].
        intros [?|?]%elem_of_cons; congruence.
Qed.

(** The index list that the loop body uses when one name is asked for. *)
Lemma one_name_indices (l : list tref) (indices : option (list Z)) (name : string) :
  let idx := if is_None indices || (1 <? len [name])
             then range (length l) else default [] indices in
  py_gets l idx = selected l indices /\
  py_all_ok l idx = selection_ok l indices.
Proof.
  destruct indices as [idx|]; cbn [is_None orb default selected selection_ok].
  - change (1 <? len [name]) with false. cbv iota. now split.
  - apply py_gets_range.
Qed.

(** The marking phase on a graph with exactly one node of the name. *)
Lemma mark_loop_unique (w : World) (before after : list GsNode) (node : GsNode)
      (name : string) (bMarkOutput bMarkInput : bool)
      (lMarkOutput lMarkInput : option (list Z)) :
  n_name node = name ->
  Forall (fun m => n_name m <> name) (before ++ after) ->
  let so := if bMarkOutput then selected (n_outputs node) lMarkOutput else [] in
  let ok_o := if bMarkOutput then selection_ok (n_outputs node) lMarkOutput
              else true in
  let si := if bMarkInput && ok_o then selected (n_inputs node) lMarkInput
            else [] in
  let ok_i := if bMarkInput then selection_ok (n_inputs node) lMarkInput
              else true in
  variables_only w so ->
  mark_loop [name] bMarkOutput bMarkInput (before ++ node :: after)
            lMarkOutput lMarkInput w
  = ((if ok_o && ok_i then Ret tt else Raise IndexError),
     mkWorld (coerce_all so (tensors w))
             (mkGraph (nodes (graph w)) (inputs (graph w))
                      (outputs (graph w) ++ so ++ si))).
Proof.
  intros Hname [Hb Ha]%Forall_app so ok_o si ok_i Hv.
  assert (forall l, Forall (fun m => n_name m <> name) l ->
                    Forall (fun m => n_name m ∉ [name]) l) as Hskip.
  { intros l Hl. eapply Forall_impl; [exact Hl|].
    intros m Hm Hin%list_elem_of_singleton. auto. }
  assert (forall lo li w', mark_loop [name] bMarkOutput bMarkInput after lo li w'
                           = (Ret tt, w')) as Hafter.
  { intros lo li w'. now apply mark_loop_skip_all, Hskip. }
  rewrite mark_loop_skip by now apply Hskip.
  cbn [mark_loop]. rewrite Hname.
  rewrite bool_decide_eq_true_2 by apply list_elem_of_here.
  destruct (one_name_indices (n_outputs node) lMarkOutput name) as [Hgo Hoo].
  destruct (one_name_indices (n_inputs node) lMarkInput name) as [Hgi Hoi].
  cbv zeta in Hgo, Hoo, Hgi, Hoi.
  subst so ok_o si ok_i.
  destruct bMarkOutput, bMarkInput; unfold bind, ret;
    try (rewrite mark_output_loop_run by (rewrite Hgo; exact Hv));
    rewrite ?Hgo, ?Hoo.
  - destruct (selection_ok (n_outputs node) lMarkOutput);
      cbn [andb]; [|now rewrite app_nil_r].
    rewrite mark_input_loop_run, Hgi, Hoi. cbn [tensors graph nodes inputs outputs].
    rewrite <- app_assoc.
    destruct (selection_ok (n_inputs node) lMarkInput); [apply Hafter|reflexivity].
  - rewrite !app_nil_r, andb_true_r.
    destruct (selection_ok (n_outputs node) lMarkOutput); [apply Hafter|reflexivity].
  - rewrite mark_input_loop_run, Hgi, Hoi. cbn [andb app coerce_all foldl].
    destruct (selection_ok (n_inputs node) lMarkInput); [apply Hafter|reflexivity].
  - cbn [andb app coerce_all foldl]. rewrite Hafter.
    now rewrite app_nil_r, graph_eta, world_eta.
Qed.

Lemma mark_graph_output_unique_run (w : World) (before after : list GsNode)
      (node : GsNode) (name : string) (bMarkOutput bMarkInput : bool)
      (lMarkOutput lMarkInput : option (list Z)) (bRemoveOldOutput : bool) :
  nodes (graph w) = before ++ node :: after ->
  n_name node = name ->
  Forall (fun m => n_name m <> name) (before ++ after) ->
  let so := if bMarkOutput then selected (n_outputs node) lMarkOutput else [] in
  let ok_o := if bMarkOutput then selection_ok (n_outputs node) lMarkOutput
              else true in
  let si := if bMarkInput && ok_o then selected (n_inputs node) lMarkInput
            else [] in
  let ok_i := if bMarkInput then selection_ok (n_inputs node) lMarkInput
              else true in
  let w1 := mkWorld (coerce_all so (tensors w))
                    (mkGraph (nodes (graph w)) (inputs (graph w))
                             (kept_outputs bRemoveOldOutput w ++ so ++ si)) in
  variables_only w so ->
  mark_graph_output [name] bMarkOutput bMarkInput lMarkOutput lMarkInput
                    bRemoveOldOutput w
  = if ok_o && ok_i
    then bind (graph_cleanup ;;; graph_toposort) (fun _ => ret 1) w1
    else (Raise IndexError, w1).
Proof.
  intros Hns Hname Hother so ok_o si ok_i w1 Hv.
  unfold mark_graph_output. rewrite mark_graph_output_start.
  set (w0 := mkWorld (tensors w) _).
  unfold bind at 1, get_world at 1.
  change (nodes (graph w0)) with (nodes (graph w)).
  unfold bind at 1. rewrite Hns at 1.
  rewrite (mark_loop_unique w0 before after node name) by assumption.
  fold so ok_o si ok_i. cbn [w0 tensors graph nodes inputs outputs]. fold w1.
  destruct (ok_o && ok_i); reflexivity.
Qed.



(** After the call the second node is gone, and with it the consumer of
    the first output. *)
Example mark_graph_output_conv_run :
  let r := mark_graph_output ["Conv"] true false None None true conv_world in
  fst r = Ret 1 /\
  nodes (graph (snd r)) = [conv_node] /\
  outputs (graph (snd r)) = [1%nat; 2%nat] /\
  t_dtype <$> tensors conv_world = [float32; int64; int32; float32] /\
  t_dtype <$> tensors (snd r) = [float32; float32; float32; float32] /\
  t_outputs <$> tensors conv_world = [[conv_node]; [relu_node]; []; []] /\
  t_outputs <$> tensors (snd r) = [[conv_node]; []; []; []].
Proof. vm_compute. repeat split. Qed.

(** ** The MNIST graph *)

(** C8: building the classifier with two convolutions and two max-pools
    gives a graph of 15 nodes; its declared outputs are, in this order, the
    tensor that feeds the softmax and the tensor produced by the arg-max; the
    cleanup and the sort at the end of the builder do not raise. *)
Theorem build_mnist_network_onnx_graph :
  let r := build_mnist_network_onnx empty_world in
  fst r = Ret tt /\
  length (nodes (graph (snd r))) = 15%nat /\
  n_op <$> nodes (graph (snd r)) =
    ["Conv"; "Relu"; "MaxPool"; "Conv"; "Relu"; "MaxPool"; "Transpose";
     "Reshape"; "MatMul"; "Add"; "Relu"; "MatMul"; "Add"; "Softmax"; "ArgMax"] /\
  exists logits classes softmax argmax,
    outputs (graph (snd r)) = [logits; classes] /\
    softmax ∈ nodes (graph (snd r)) /\ n_op softmax = "Softmax" /\
    n_inputs softmax = [logits] /\
    argmax ∈ nodes (graph (snd r)) /\ n_op argmax = "ArgMax" /\
    n_outputs argmax = [classes] /\
    t_name <$> tensors (snd r) !! logits = Some "MNIST-V-12-Add-0" /\
    t_name <$> tensors (snd r) !! classes = Some "MNIST-V-14-ArgMax-0".
Proof.
  set (res := build_mnist_network_onnx empty_world).
  assert (exists w', res = (Ret tt, w') /\
            exists ns softmax argmax,
              nodes (graph w') = ns ++ [softmax; argmax] /\ length ns = 13%nat /\
              n_op <$> ns ++ [softmax; argmax] =
                ["Conv"; "Relu"; "MaxPool"; "Conv"; "Relu"; "MaxPool";
                 "Transpose"; "Reshape"; "MatMul"; "Add"; "Relu"; "MatMul";
                 "Add"; "Softmax"; "ArgMax"] /\
              outputs (graph w') = n_inputs softmax ++ n_outputs argmax /\
              n_op softmax = "Softmax" /\ n_op argmax = "ArgMax" /\
              n_inputs softmax = [22%nat] /\ n_outputs argmax = [24%nat] /\
              t_name <$> tensors w' !! 22%nat = Some "MNIST-V-12-Add-0" /\
              t_name <$> tensors w' !! 24%nat = Some "MNIST-V-14-ArgMax-0")
    as (w' & -> & ns & softmax & argmax & Hns & Hlen & Hops & Hout
        & Hs & Ha & Hi & Ho & Hl & Hc).
  { subst res. vm_compute. eexists. split; [reflexivity|].
    eexists (_ :: _ :: _ :: _ :: _ :: _ :: _ :: _ :: _ :: _ :: _ :: _ :: [_]), _, _.
    cbn [app]. repeat split. }
  cbn [fst snd]. split; [reflexivity|]. rewrite Hns, Hops.
  split; [rewrite length_app, Hlen; reflexivity|]. split; [reflexivity|].
  exists 22%nat, 24%nat, softmax, argmax. rewrite Hout, Hi, Ho.
  split; [reflexivity|].
  split; [apply elem_of_app; right; apply list_elem_of_here|].
  split; [exact Hs|]. split; [reflexivity|].
  split; [apply elem_of_app; right; apply list_elem_of_further, list_elem_of_here|].
  split; [exact Ha|]. repeat split; assumption.
Qed.

(** * Further properties *)

(** ** [add_node]: names under arbitrary counters *)

Lemma pretty_N_go_nonempty (x : N) (s : string) :
  s <> "" -> pretty_N_go x s <> "".
Proof.
  revert s. induction (N.lt_wf_0 x) as [x _ IH]. intros s Hs.
  destruct (decide (x = 0)%N) as [->|Hx].
  - now rewrite pretty_N_go_0.
  - rewrite pretty_N_go_step by lia.
    apply IH; [apply N.div_lt; lia|discriminate].
Qed.

Lemma str_nonneg_head (n : Z) :
  0 <= n -> exists a s, str n = String a s /\ is_digit a = true.
Proof.
  intros Hn. pose proof (str_digits n Hn) as Hd.
  destruct (str n) as [|a s] eqn:E.
  - exfalso. revert E. unfold str, pretty, pretty_Z.
    destruct n as [|p|p]; [discriminate| |lia].
    unfold pretty, pretty_positive, pretty, pretty_N.
    case_decide; [discriminate|].
    rewrite pretty_N_go_step by lia.
    apply pretty_N_go_nonempty. discriminate.
  - exists a, s. split; [reflexivity|].
    cbn in Hd. now apply andb_prop in Hd as [Ha _].
Qed.

Lemma str_neg (n : Z) : n < 0 -> str n = "-" +:+ str (- n).
Proof. intros Hn. destruct n as [|p|p]; [lia|lia|reflexivity]. Qed.

(** The numeral of any integer ends at the dash that follows it. *)
Lemma str_dash_inj (m n : Z) (r1 r2 : string) :
  str m +:+ "-" +:+ r1 = str n +:+ "-" +:+ r2 -> m = n.
Proof.
  intros E.
  destruct (Z.lt_ge_cases m 0) as [Hm|Hm]; destruct (Z.lt_ge_cases n 0) as [Hn|Hn].
  - rewrite (str_neg m Hm), (str_neg n Hn), !append_assoc in E.
    apply (inj (String.append "-")) in E.
    apply digits_dash in E; [|apply str_digits; lia..].
    apply str_inj in E. lia.
  - exfalso. destruct (str_nonneg_head n Hn) as (a & s & Hs & Ha).
    rewrite (str_neg m Hm), Hs in E. injection E as <- _. discriminate.
  - exfalso. destruct (str_nonneg_head m Hm) as (a & s & Hs & Ha).
    rewrite (str_neg n Hn), Hs in E. injection E as -> _. discriminate.
  - apply digits_dash in E; [|apply str_digits; lia..].
    now apply str_inj.
Qed.

Lemma call_names_disjoint_counters prefix k1 k2 t1 s1 n1 t2 s2 n2 (x : string) :
  k1 <> k2 ->
  x ∈ call_names prefix k1 t1 s1 n1 ->
  x ∉ call_names prefix k2 t2 s2 n2.
Proof.
  intros Hk H1 H2. unfold call_names in *.
  apply elem_of_cons in H1 as [->|(i & -> & _)%list_elem_of_fmap];
    apply elem_of_cons in H2 as [E|(j & E & _)%list_elem_of_fmap].
  - unfold node_name in E.
    apply (inj (String.append prefix)) in E.
    apply (inj (String.append "-N-")) in E.
    now apply str_dash_inj in E.
  - now apply node_tensor_name_ne in E.
  - symmetry in E. now apply node_tensor_name_ne in E.
  - rewrite !tensor_name_eq in E.
    apply (inj (String.append prefix)) in E.
    apply (inj (String.append "-V-")) in E.
    now apply str_dash_inj in E.
Qed.

(** X1: two calls in sequence with the same prefix and any two different
    counters, negative ones included, create pairwise distinct names. *)
Theorem add_node_names_distinct_counters
        (w : World) (prefix : string) (k1 k2 : Z)
        (type1 : string) (inputs1 : list tref) (attrs1 : list (string * pyval))
        (dtypes1 : dtype_arg) (shapes1 : list pyval) (suffix1 : string)
        (type2 : string) (inputs2 : list tref) (attrs2 : list (string * pyval))
        (dtypes2 : dtype_arg) (shapes2 : list pyval) (suffix2 : string) :
  k1 <> k2 ->
  let w1 := snd (add_node type1 inputs1 attrs1 dtypes1 shapes1 prefix suffix1 k1 w) in
  let w2 := snd (add_node type2 inputs2 attrs2 dtypes2 shapes2 prefix suffix2 k2 w1) in
  NoDup (created_names w w1 ++ created_names w1 w2).
Proof.
  intros Hk w1 w2.
  destruct (add_node_created_names type1 inputs1 attrs1 dtypes1 shapes1
              prefix suffix1 k1 w) as [E1|E1];
    destruct (add_node_created_names type2 inputs2 attrs2 dtypes2 shapes2
                prefix suffix2 k2 w1) as [E2|E2];
    fold w1 in E1; fold w2 in E2; rewrite E1, E2.
  - constructor.
  - apply call_names_NoDup.
  - rewrite app_nil_r. apply call_names_NoDup.
  - apply NoDup_app. split; [apply call_names_NoDup|].
    split; [|apply call_names_NoDup].
    intros x. now apply call_names_disjoint_counters.
Qed.

Lemma add_node_names_distinct_counters_witness :
  -3 <> 12 /\
  NoDup
    (created_names empty_world
       (snd (add_node "Neg" [] [] (DtOne float32) [] "P" "" (-3) empty_world)) ++
     created_names
       (snd (add_node "Neg" [] [] (DtOne float32) [] "P" "" (-3) empty_world))
       (snd (add_node "Neg" [0%nat] [] (DtOne float32) [] "P" "" 12
               (snd (add_node "Neg" [] [] (DtOne float32) [] "P" "" (-3)
                              empty_world))))).
Proof.
  split; [lia|].
  apply (add_node_names_distinct_counters empty_world "P" (-3) 12
           "Neg" [] [] (DtOne float32) [] ""
           "Neg" [0%nat] [] (DtOne float32) [] "").
  lia.
Defined.

(** ** [add_node]: the two forms of the output description *)

(** Giving one dtype and one shape is the same as giving the lists that hold
    just them. *)
Remark add_node_single_is_list
        (w : World) (node_type : string) (input_list : list tref)
        (attribution : list (string * pyval)) (d : dtype) (shape : list pyval)
        (prefix suffix : string) (number : Z) :
  add_node node_type input_list attribution (DtOne d) shape
           prefix suffix number w
  = add_node node_type input_list attribution (DtList [d]) [PyList shape]
             prefix suffix number w.
Proof. reflexivity. Qed.

(** ** [add_node]: failure *)

(** X2: the only way [add_node] fails is the assertion on lists of different
    lengths, and a failed call has changed nothing. *)
Theorem add_node_fails_only_on_mismatch
        (w : World) (node_type : string) (input_list : list tref)
        (attribution : list (string * pyval))
        (datatype_list : dtype_arg) (shape_list : list pyval)
        (prefix suffix : string) (number : Z) (e : exn) :
  fst (add_node node_type input_list attribution datatype_list shape_list
                prefix suffix number w) = Raise e ->
  e = AssertionError /\
  (exists l, datatype_list = DtList l /\ length l <> length shape_list) /\
  snd (add_node node_type input_list attribution datatype_list shape_list
                prefix suffix number w) = w.
Proof.
  intros Hfail.
  destruct datatype_list as [d|l].
  - destruct (add_node_spec node_type input_list attribution (DtOne d)
                shape_list prefix suffix number w I) as (w' & Hrun & _).
    rewrite Hrun in Hfail. discriminate.
  - destruct (decide (length l = length shape_list)) as [Hlen|Hlen].
    + destruct (add_node_spec node_type input_list attribution (DtList l)
                  shape_list prefix suffix number w Hlen) as (w' & Hrun & _).
      rewrite Hrun in Hfail. discriminate.
    + rewrite add_node_assert in * by assumption.
      injection Hfail as <-. eauto.
Qed.

Lemma add_node_fails_only_on_mismatch_witness :
  fst (add_node "Split" [] [] (DtList [float32]) [] "P" "" 0 empty_world)
  = Raise AssertionError /\
  (AssertionError = AssertionError /\
   (exists l, DtList [float32] = DtList l /\ length l <> length (@nil pyval)) /\
   snd (add_node "Split" [] [] (DtList [float32]) [] "P" "" 0 empty_world)
   = empty_world).
Proof.
  split; [reflexivity|].
  apply (add_node_fails_only_on_mismatch empty_world "Split" [] []
           (DtList [float32]) [] "P" "" 0 AssertionError).
  reflexivity.
Defined.

(** ** [add_node]: the node and its fresh outputs *)

Lemma add_node_store_length node_type input_list attribution datatype_list
      shape_list prefix suffix number (w w' : World) r :
  add_node node_type input_list attribution datatype_list shape_list
           prefix suffix number w = (Ret r, w') ->
  length (tensors w') =
  (length (tensors w) + length (out_dtypes datatype_list))%nat.
Proof.
  intros Hrun.
  destruct (add_node_cases node_type input_list attribution datatype_list
              shape_list prefix suffix number w) as [Hok|Hfail];
    [|rewrite Hfail in Hrun; discriminate].
  destruct (add_node_spec node_type input_list attribution datatype_list
              shape_list prefix suffix number w Hok)
    as (w1 & Hrun1 & _ & _ & Hd & _).
  rewrite Hrun in Hrun1. injection Hrun1 as _ <-.
  apply (f_equal length) in Hd.
  now rewrite length_app, !length_fmap in Hd.
Qed.

(** X3: the node appended by a call that meets the precondition carries the
    operation type, the inputs and the attributes as given; its outputs are
    the returned tensors, which are pairwise different variables that did not
    exist before the call. *)
Theorem add_node_node_contents
        (w : World) (node_type : string) (input_list : list tref)
        (attribution : list (string * pyval))
        (datatype_list : dtype_arg) (shape_list : list pyval)
        (prefix suffix : string) (number : Z) :
  args_ok datatype_list shape_list ->
  exists result w' node,
    add_node node_type input_list attribution datatype_list shape_list
             prefix suffix number w = (Ret (result, number + 1), w') /\
    nodes (graph w') = nodes (graph w) ++ [node] /\
    n_op node = node_type /\ n_inputs node = input_list /\
    n_attrs node = attribution /\ n_outputs node = result_tensors result /\
    NoDup (result_tensors result) /\
    forall t, t ∈ result_tensors result ->
      tensors w !! t = None /\
      exists T, tensors w' !! t = Some T /\ t_kind T = KVariable.
Proof.
  intros Hok.
  destruct (add_node_pointwise node_type input_list attribution datatype_list
              shape_list prefix suffix number w Hok)
    as (w' & Hrun & Hg & Hnew & _).
  eexists _, w', _. split; [exact Hrun|].
  rewrite Hg, result_tensors_wrap. cbn [nodes n_op n_inputs n_attrs n_outputs].
  do 5 (split; [reflexivity|]). split; [apply NoDup_seq|].
  intros t [Hge Hlt]%elem_of_seq. split; [apply lookup_ge_None; lia|].
  destruct (lookup_lt_is_Some_2 (out_dtypes datatype_list)
              (t - length (tensors w))%nat) as [d Hd]; [lia|].
  destruct (Hnew _ d Hd) as (T & s & HT & _ & _ & _ & _ & Hk).
  exists T. split; [|exact Hk].
  now replace (length (tensors w) + (t - length (tensors w)))%nat with t in HT by lia.
Qed.

Lemma add_node_node_contents_witness :
  args_ok (DtList [float32; int64]) [PyList []; PyList []] /\
  exists result w' node,
    add_node "TopK" [0%nat] [("k", PyInt 3)] (DtList [float32; int64])
             [PyList []; PyList []] "P" "" 1 frame_world
      = (Ret (result, 1 + 1), w') /\
    nodes (graph w') = nodes (graph frame_world) ++ [node] /\
    n_op node = "TopK" /\ n_inputs node = [0%nat] /\
    n_attrs node = [("k", PyInt 3)] /\ n_outputs node = result_tensors result /\
    NoDup (result_tensors result) /\
    forall t, t ∈ result_tensors result ->
      tensors frame_world !! t = None /\
      exists T, tensors w' !! t = Some T /\ t_kind T = KVariable.
Proof.
  split; [reflexivity|].
  apply (add_node_node_contents frame_world "TopK" [0%nat] [("k", PyInt 3)]
           (DtList [float32; int64]) [PyList []; PyList []] "P" "" 1).
  reflexivity.
Defined.

(** ** [add_node]: references stay valid *)

(** X4: on a world where every tensor reference of the graph points into the
    store, a call whose inputs do so too leaves such a world, whether it
    returns or raises. *)
Theorem add_node_refs_valid
        (w : World) (node_type : string) (input_list : list tref)
        (attribution : list (string * pyval))
        (datatype_list : dtype_arg) (shape_list : list pyval)
        (prefix suffix : string) (number : Z) :
  refs_valid w ->
  Forall (fun t : tref => (t < length (tensors w))%nat) input_list ->
  refs_valid (snd (add_node node_type input_list attribution datatype_list
                            shape_list prefix suffix number w)).
Proof.
  intros (Hi & Ho & Hn) Hin.
  destruct (add_node_cases node_type input_list attribution datatype_list
              shape_list prefix suffix number w) as [Hok| ->];
    [|now repeat split].
  destruct (add_node_pointwise node_type input_list attribution datatype_list
              shape_list prefix suffix number w Hok)
    as (w' & Hrun & Hg & _).
  pose proof (add_node_store_length _ _ _ _ _ _ _ _ _ _ _ Hrun) as Hlen.
  rewrite Hrun. cbn [snd]. unfold refs_valid. rewrite Hg, Hlen.
  cbn [nodes inputs outputs].
  assert (forall l : list tref,
            Forall (fun t => (t < length (tensors w))%nat) l ->
            Forall (fun t =>
                      (t < length (tensors w) + length (out_dtypes datatype_list))%nat) l)
    as Hmono.
  { intros l Hl. eapply Forall_impl; [exact Hl|]. cbn. intros; lia. }
  split; [now apply Hmono|]. split; [now apply Hmono|].
  apply Forall_app. split.
  - eapply Forall_impl; [exact Hn|]. cbn. intros n [H1 H2]. split; now apply Hmono.
  - constructor; [|constructor]. cbn [n_inputs n_outputs]. split; [now apply Hmono|].
    apply Forall_forall. intros t [_ Hlt]%elem_of_seq. exact Hlt.
Qed.

Lemma add_node_refs_valid_witness :
  (refs_valid frame_world /\
   Forall (fun t : tref => (t < length (tensors frame_world))%nat) [0%nat]) /\
  refs_valid (snd (add_node "Relu" [0%nat] [] (DtOne float32) [PyInt 2]
                            "P" "" 0 frame_world)).
Proof.
  assert (refs_valid frame_world) as Hw.
  { unfold refs_valid. cbn. repeat constructor. }
  assert (Forall (fun t : tref => (t < length (tensors frame_world))%nat) [0%nat])
    as Hin by (repeat constructor).
  split; [split; assumption|].
  apply (add_node_refs_valid frame_world "Relu" [0%nat] [] (DtOne float32)
           [PyInt 2] "P" "" 0 Hw Hin).
Defined.

(** ** [add_node] followed by [find_son_node] *)

(** The world after a call that meets the precondition, in full. *)
Lemma add_node_run node_type input_list attribution datatype_list shape_list
      prefix suffix number (w : World) :
  args_ok datatype_list shape_list ->
  let output_list := seq (length (tensors w)) (length (out_dtypes datatype_list)) in
  let node := mkNode node_type (node_name prefix number node_type) attribution
                     input_list output_list in
  exists new,
    add_node node_type input_list attribution datatype_list shape_list
             prefix suffix number w
    = (Ret (wrap output_list, number + 1),
       mkWorld
         (foldl (fun ts t => alter (add_producer node) t ts)
                (foldl (fun ts t => alter (add_consumer node) t ts)
                       (tensors w ++ new) input_list)
                output_list)
         (mkGraph (nodes (graph w) ++ [node])
                  (inputs (graph w)) (outputs (graph w)))).
Proof.
  intros Hok output_list node.
  assert (length (out_shapes datatype_list shape_list)
          = length (out_dtypes datatype_list)) as Hlen.
  { destruct datatype_list; cbn in *; congruence. }
  destruct (output_loop_seq prefix number node_type suffix
              (out_dtypes datatype_list)
              (out_shapes datatype_list shape_list)
              (length (out_dtypes datatype_list)) [] w)
    as (new & Hrun & _); [lia..|].
  exists new. unfold add_node.
  assert (forall k : list dtype * list pyval -> M (node_result * Z),
    bind (match datatype_list with
          | DtList l => assert (len l =? len shape_list) ;;; ret (l, shape_list)
          | DtOne d => ret ([d], [PyList shape_list])
          end) k w
    = k (out_dtypes datatype_list, out_shapes datatype_list shape_list) w) as ->.
  { intros k. destruct datatype_list as [d|l]; [reflexivity|].
    cbn in Hok. unfold bind, assert, len. rewrite Hok, Z.eqb_refl. reflexivity. }
  cbv beta iota. unfold bind at 1. rewrite Hrun. cbn [app].
  fold output_list. unfold bind, gs_Node, graph_nodes_append.
  cbn [tensors graph]. fold node. rewrite ret_wrap. reflexivity.
Qed.

Lemma foldl_add_producer_lookup (n : GsNode) (l : list tref)
      (ts : list GsTensor) (t : tref) :
  t_outputs <$> foldl (fun ts t => alter (add_producer n) t ts) ts l !! t
  = t_outputs <$> ts !! t.
Proof.
  rewrite <- !list_lookup_fmap. f_equal. now apply foldl_alter_fmap.
Qed.

(** Building a node adds it at the end of the consumer list of each of its
    inputs, once per occurrence, and to no other consumer list. *)
Lemma foldl_add_consumer_lookup (n : GsNode) (l : list tref)
      (ts : list GsTensor) (t : tref) (T : GsTensor) :
  ts !! t = Some T ->
  exists k T',
    foldl (fun ts t => alter (add_consumer n) t ts) ts l !! t = Some T' /\
    t_outputs T' = t_outputs T ++ replicate k n /\
    (t ∈ l -> (0 < k)%nat) /\ (t ∉ l -> k = 0%nat).
Proof.
  revert ts T. induction l as [|t0 l IH]; intros ts T HT.
  - exists 0%nat, T. cbn. rewrite app_nil_r.
    repeat split; [assumption|intros []%elem_of_nil].
  - cbn [foldl]. destruct (decide (t0 = t)) as [->|Hne].
    + destruct (IH (alter (add_consumer n) t ts) (add_consumer n T))
        as (k & T' & HT' & Hout & _).
      { now rewrite list_lookup_alter_eq, HT. }
      exists (S k), T'. split; [exact HT'|]. split.
      * rewrite Hout. cbn. now rewrite <- app_assoc.
      * split; [lia|]. intros []. apply list_elem_of_here.
    + destruct (IH (alter (add_consumer n) t0 ts) T) as (k & T' & HT' & Hout & Hin & Hnin).
      { now rewrite list_lookup_alter_ne. }
      exists k, T'. split; [exact HT'|]. split; [exact Hout|]. split.
      * intros [?|?]%elem_of_cons; [congruence|auto].
      * intros Hn. apply Hnin. intros ?. apply Hn. now apply list_elem_of_further.
Qed.

Lemma son_loop_app (condition : GsNode -> bool) (l1 l2 : list GsNode) :
  Forall (fun m => condition m = false) l1 ->
  son_loop condition (l1 ++ l2) = son_loop condition l2.
Proof.
  induction 1 as [|m l1 Hm _ IH]; [reflexivity|].
  cbn [app son_loop]. now rewrite Hm.
Qed.

(** X5: after a call that meets the precondition, the node it appended is
    found by [find_son_node] from each of its input tensors when searching
    for its name, provided no earlier consumer of that tensor bears it. *)
Theorem add_node_then_find_son_node
        (w : World) (node_type : string) (input_list : list tref)
        (attribution : list (string * pyval))
        (datatype_list : dtype_arg) (shape_list : list pyval)
        (prefix suffix : string) (number : Z) (t : tref) (T : GsTensor) :
  args_ok datatype_list shape_list ->
  t ∈ input_list ->
  tensors w !! t = Some T ->
  Forall (fun m => n_name m <> node_name prefix number node_type) (t_outputs T) ->
  exists result w' node,
    add_node node_type input_list attribution datatype_list shape_list
             prefix suffix number w = (Ret (result, number + 1), w') /\
    nodes (graph w') = nodes (graph w) ++ [node] /\
    find_son_node t
      (fun _ m => bool_decide (n_name m = node_name prefix number node_type)) w'
    = (Ret (Some node), w').
Proof.
  intros Hok Hin HT Hold.
  destruct (add_node_run node_type input_list attribution datatype_list
              shape_list prefix suffix number w Hok) as (new & Hrun).
  eexists _, _, _. split; [exact Hrun|]. split; [reflexivity|].
  set (node := mkNode node_type (node_name prefix number node_type) attribution
                      input_list _).
  destruct (foldl_add_consumer_lookup node input_list (tensors w ++ new) t T)
    as (k & T' & HT' & Hout & Hk & _).
  { now apply lookup_app_l_Some. }
  specialize (Hk Hin).
  pose proof (foldl_add_producer_lookup node
                (seq (length (tensors w)) (length (out_dtypes datatype_list)))
                (foldl (fun ts t => alter (add_consumer node) t ts)
                       (tensors w ++ new) input_list) t) as Hp.
  rewrite HT' in Hp. cbn [fmap option_fmap option_map] in Hp.
  unfold find_son_node. cbn [tensors].
  destruct (foldl _ (foldl _ _ input_list) _ !! t) as [T2|] eqn:E2;
    [|discriminate].
  injection Hp as Hp. rewrite Hp, Hout.
  rewrite son_loop_app.
  - destruct k as [|k]; [lia|]. cbn [replicate son_loop n_name node].
    now rewrite bool_decide_eq_true_2.
  - eapply Forall_impl; [exact Hold|]. cbn. intros m Hm.
    now apply bool_decide_eq_false_2.
Qed.

Lemma add_node_then_find_son_node_witness :
  (args_ok (DtOne float32) [] /\ 0%nat ∈ [0%nat; 0%nat] /\
   tensors son_world !! 0%nat = Some son_tensor /\
   Forall (fun m => n_name m <> node_name "P" 9 "Mul") (t_outputs son_tensor)) /\
  exists result w' node,
    add_node "Mul" [0%nat; 0%nat] [] (DtOne float32) [] "P" "" 9 son_world
      = (Ret (result, 9 + 1), w') /\
    nodes (graph w') = nodes (graph son_world) ++ [node] /\
    find_son_node 0%nat
      (fun _ m => bool_decide (n_name m = node_name "P" 9 "Mul")) w'
    = (Ret (Some node), w').
Proof.
  assert (0%nat ∈ [0%nat; 0%nat]) as Hin by apply list_elem_of_here.
  assert (Forall (fun m => n_name m <> node_name "P" 9 "Mul")
                 (t_outputs son_tensor)) as Hold
    by (repeat constructor; discriminate).
  split; [repeat split; assumption|].
  apply (add_node_then_find_son_node son_world "Mul" [0%nat; 0%nat] []
           (DtOne float32) [] "P" "" 9 0%nat son_tensor I Hin eq_refl Hold).
Defined.

(** ** Effects of [mark_graph_output] on the world *)

Lemma preserves_ret {A} (R : World -> World -> Prop) (a : A) :
  Reflexive R -> preserves R (ret a).
Proof. intros HR w. apply HR. Qed.

Lemma preserves_bind {A B} (R : World -> World -> Prop) (m : M A) (k : A -> M B) :
  Transitive R -> preserves R m -> (forall a, preserves R (k a)) ->
  preserves R (bind m k).
Proof.
  intros HR Hm Hk w. unfold bind. specialize (Hm w).
  destruct (m w) as [[a|e] w1]; cbn [snd] in *; [|exact Hm].
  exact (HR _ _ _ Hm (Hk a w1)).
Qed.

Lemma preserves_weaken {A} (R R' : World -> World -> Prop) (m : M A) :
  (forall w w', R w w' -> R' w w') -> preserves R m -> preserves R' m.
Proof. intros H Hm w. apply H, Hm. Qed.

Lemma py_index_state {A} (l : list A) (i : Z) (w : World) :
  snd (py_index l i w) = w.
Proof.
  unfold py_index. destruct (_ <? 0); [reflexivity|].
  destruct (l !! _); reflexivity.
Qed.

Lemma py_index_preserves {A} (R : World -> World -> Prop) (l : list A) (i : Z) :
  Reflexive R -> preserves R (py_index l i).
Proof. intros HR w. rewrite py_index_state. apply HR. Qed.

Lemma mark_frame_refl : Reflexive mark_frame.
Proof.
  intros w. repeat split. intros t T HT. exists T. repeat split; auto.
Qed.

Lemma mark_frame_trans : Transitive mark_frame.
Proof.
  intros w1 w2 w3 [[Hl12 Ht12] Hi12] [[Hl23 Ht23] Hi23].
  split; [split|]; [congruence| |unfold same_inputs in *; congruence].
  intros t T HT.
  destruct (Ht12 t T HT) as (T2 & H2 & Hk2 & Hn2 & Hs2 & Hd2).
  destruct (Ht23 t T2 H2) as (T3 & H3 & Hk3 & Hn3 & Hs3 & Hd3).
  exists T3. split; [exact H3|].
  split; [congruence|]. split; [congruence|]. split; [congruence|].
  destruct Hd3 as [Hd3|[Hd3 Hv3]]; [|right; split; congruence].
  destruct Hd2 as [Hd2|[Hd2 Hv2]]; [left|right; split]; congruence.
Qed.

Lemma same_attrs_frame (w w' : World) :
  same_attrs w w' -> inputs (graph w') = inputs (graph w) -> mark_frame w w'.
Proof.
  intros Ha Hi. split; [|exact Hi]. split.
  - unfold same_attrs in Ha.
    rewrite <- (length_fmap tensor_attrs (tensors w')), Ha. apply length_fmap.
  - intros t T HT. destruct (attrs_lookup _ _ _ _ Ha HT) as (T' & HT' & E).
    exists T'. split; [exact HT'|].
    unfold tensor_attrs in E. injection E as -> -> -> ->. auto.
Qed.

Lemma same_store_frame (w w' : World) :
  tensors w' = tensors w -> inputs (graph w') = inputs (graph w) ->
  mark_frame w w'.
Proof.
  intros Ht Hi. apply same_attrs_frame; [|exact Hi].
  unfold same_attrs. now rewrite Ht.
Qed.

Lemma set_dtype_frame (t : tref) : preserves mark_frame (set_dtype t float32).
Proof.
  intros w. unfold set_dtype. destruct (is_constant w t) eqn:Hc; cbn [snd];
    [apply mark_frame_refl|].
  split; [|reflexivity]. cbn [tensors]. split; [apply length_alter|].
  intros t' T HT. cbn [tensors]. destruct (decide (t = t')) as [->|Hne].
  - exists (with_dtype float32 T). rewrite list_lookup_alter_eq, HT.
    split; [reflexivity|]. repeat split. right. split; [reflexivity|].
    now apply (is_constant_variable w t').
  - exists T. rewrite list_lookup_alter_ne by exact Hne. repeat split; auto.
Qed.

Lemma mark_output_loop_frame node idx :
  preserves mark_frame (mark_output_loop node idx).
Proof.
  induction idx as [|i idx IH]; cbn [mark_output_loop].
  - apply preserves_ret, mark_frame_refl.
  - repeat (apply preserves_bind; [apply mark_frame_trans| |intros ?]);
      try exact IH;
      try (apply py_index_preserves, mark_frame_refl);
      try apply set_dtype_frame.
    intros w. now apply same_store_frame.
Qed.

Lemma mark_input_loop_store node idx (w : World) :
  tensors (snd (mark_input_loop node idx w)) = tensors w /\
  inputs (graph (snd (mark_input_loop node idx w))) = inputs (graph w) /\
  nodes (graph (snd (mark_input_loop node idx w))) = nodes (graph w).
Proof. rewrite mark_input_loop_run. now repeat split. Qed.

Lemma mark_input_loop_frame node idx :
  preserves mark_frame (mark_input_loop node idx).
Proof.
  intros w. destruct (mark_input_loop_store node idx w) as (H1 & H2 & _).
  now apply same_store_frame.
Qed.

Lemma mark_loop_frame lNode bMarkOutput bMarkInput ns lMarkOutput lMarkInput :
  preserves mark_frame
            (mark_loop lNode bMarkOutput bMarkInput ns lMarkOutput lMarkInput).
Proof.
  revert lMarkOutput lMarkInput.
  induction ns as [|node rest IH]; intros lMarkOutput lMarkInput;
    cbn [mark_loop]; [apply preserves_ret, mark_frame_refl|].
  destruct (bool_decide _); [|apply IH].
  apply preserves_bind; [apply mark_frame_trans| |intros lo].
  { destruct bMarkOutput; [|apply preserves_ret, mark_frame_refl].
    apply preserves_bind; [apply mark_frame_trans|apply mark_output_loop_frame|].
    intros _. apply preserves_ret, mark_frame_refl. }
  apply preserves_bind; [apply mark_frame_trans| |intros li; apply IH].
  destruct bMarkInput; [|apply preserves_ret, mark_frame_refl].
  apply preserves_bind; [apply mark_frame_trans|apply mark_input_loop_frame|].
  intros _. apply preserves_ret, mark_frame_refl.
Qed.

Lemma graph_toposort_store (w : World) :
  tensors (snd (graph_toposort w)) = tensors w /\
  inputs (graph (snd (graph_toposort w))) = inputs (graph w) /\
  outputs (graph (snd (graph_toposort w))) = outputs (graph w).
Proof. unfold graph_toposort. destruct (toposort _); now repeat split. Qed.

Lemma graph_passes_frame :
  preserves mark_frame graph_cleanup /\ preserves mark_frame graph_toposort.
Proof.
  split; intros w.
  - apply same_attrs_frame; [|reflexivity]. apply cleanup_links_attrs.
  - destruct (graph_toposort_store w) as (Ht & Hi & _).
    now apply same_store_frame.
Qed.

(** X6: whatever its arguments and whether it returns or raises,
    [mark_graph_output] leaves the declared inputs of the graph alone and
    keeps every tensor of the store with its kind, its name and its shape;
    an element type either stays or becomes [float32], and the latter only
    on a variable. *)
Theorem mark_graph_output_frame
        (w : World) (lNode : list string) (bMarkOutput bMarkInput : bool)
        (lMarkOutput lMarkInput : option (list Z)) (bRemoveOldOutput : bool) :
  let w' := snd (mark_graph_output lNode bMarkOutput bMarkInput
                                   lMarkOutput lMarkInput bRemoveOldOutput w) in
  inputs (graph w') = inputs (graph w) /\
  length (tensors w') = length (tensors w) /\
  forall (t : tref) (T : GsTensor),
    tensors w !! t = Some T ->
    exists T', tensors w' !! t = Some T' /\
      t_kind T' = t_kind T /\ t_name T' = t_name T /\ t_shape T' = t_shape T /\
      (t_dtype T' = t_dtype T \/ (t_dtype T' = float32 /\ t_kind T = KVariable)).
Proof.
  assert (preserves mark_frame
            (mark_graph_output lNode bMarkOutput bMarkInput
                               lMarkOutput lMarkInput bRemoveOldOutput)) as H.
  { unfold mark_graph_output.
    apply preserves_bind; [apply mark_frame_trans| |intros _].
    { destruct bRemoveOldOutput; intros w0; now apply same_store_frame. }
    apply preserves_bind; [apply mark_frame_trans| |intros w0].
    { intros w0. apply mark_frame_refl. }
    apply preserves_bind;
      [apply mark_frame_trans|apply mark_loop_frame|intros _].
    apply preserves_bind;
      [apply mark_frame_trans|apply graph_passes_frame|intros _].
    apply preserves_bind;
      [apply mark_frame_trans|apply graph_passes_frame|intros _].
    apply preserves_ret, mark_frame_refl. }
  intros w'. destruct (H w) as [[Hlen Ht] Hi]. auto.
Qed.

Lemma same_attrs_refl : Reflexive same_attrs.
Proof. intros w. reflexivity. Qed.

Lemma same_attrs_trans : Transitive same_attrs.
Proof. intros w1 w2 w3 H12 H23. unfold same_attrs in *. congruence. Qed.

Lemma same_store_attrs (w w' : World) : tensors w' = tensors w -> same_attrs w w'.
Proof. intros H. unfold same_attrs. now rewrite H. Qed.

Lemma mark_loop_same_attrs lNode bMarkInput ns lMarkOutput lMarkInput :
  preserves same_attrs (mark_loop lNode false bMarkInput ns lMarkOutput lMarkInput).
Proof.
  revert lMarkOutput lMarkInput.
  induction ns as [|node rest IH]; intros lMarkOutput lMarkInput;
    cbn [mark_loop]; [apply preserves_ret, same_attrs_refl|].
  destruct (bool_decide _); [|apply IH].
  apply preserves_bind;
    [apply same_attrs_trans|apply preserves_ret, same_attrs_refl|intros lo].
  apply preserves_bind; [apply same_attrs_trans| |intros li; apply IH].
  destruct bMarkInput; [|apply preserves_ret, same_attrs_refl].
  apply preserves_bind; [apply same_attrs_trans| |].
  - intros w. apply same_store_attrs, mark_input_loop_store.
  - intros _. apply preserves_ret, same_attrs_refl.
Qed.

(** X7: a call that marks inputs only ([bMarkOutput] false) changes no
    element type: every tensor keeps its kind, name, element type and shape,
    whether the call returns or raises. *)
Theorem mark_graph_output_inputs_only
        (w : World) (lNode : list string) (bMarkInput : bool)
        (lMarkOutput lMarkInput : option (list Z)) (bRemoveOldOutput : bool) :
  tensor_attrs <$> tensors (snd (mark_graph_output lNode false bMarkInput
                                   lMarkOutput lMarkInput bRemoveOldOutput w))
  = tensor_attrs <$> tensors w.
Proof.
  assert (preserves same_attrs
            (mark_graph_output lNode false bMarkInput
                               lMarkOutput lMarkInput bRemoveOldOutput)) as H.
  { unfold mark_graph_output.
    apply preserves_bind; [apply same_attrs_trans| |intros _].
    { destruct bRemoveOldOutput; intros w0; reflexivity. }
    apply preserves_bind; [apply same_attrs_trans| |intros w0].
    { intros w0. reflexivity. }
    apply preserves_bind;
      [apply same_attrs_trans|apply mark_loop_same_attrs|intros _].
    apply preserves_bind; [apply same_attrs_trans| |intros _].
    { intros w1. apply cleanup_links_attrs. }
    apply preserves_bind; [apply same_attrs_trans| |intros _].
    { intros w1. apply same_store_attrs, graph_toposort_store. }
    apply preserves_ret, same_attrs_refl. }
  apply H.
Qed.

(** ** What [mark_graph_output] adds to the graph outputs *)

Lemma outputs_grow_refl P : Reflexive (outputs_grow P).
Proof. intros w. exists []. now rewrite app_nil_r. Qed.

Lemma outputs_grow_trans P : Transitive (outputs_grow P).
Proof.
  intros w1 w2 w3 (a1 & H1 & F1) (a2 & H2 & F2).
  exists (a1 ++ a2). rewrite H2, H1, app_assoc. split; [reflexivity|].
  now apply Forall_app.
Qed.

Lemma outputs_grow_same P (w w' : World) :
  outputs (graph w') = outputs (graph w) -> outputs_grow P w w'.
Proof. intros H. exists []. now rewrite app_nil_r. Qed.

Lemma outputs_grow_weaken (P Q : tref -> Prop) (w w' : World) :
  (forall t, P t -> Q t) -> outputs_grow P w w' -> outputs_grow Q w w'.
Proof.
  intros HPQ (a & H & F). exists a. split; [exact H|].
  eapply Forall_impl; [exact F|exact HPQ].
Qed.

Lemma py_index_bind_preserves {A B} (R : World -> World -> Prop)
      (l : list A) (i : Z) (k : A -> M B) :
  Reflexive R -> (forall a, a ∈ l -> preserves R (k a)) ->
  preserves R (bind (py_index l i) k).
Proof.
  intros HR Hk w. unfold bind, py_index.
  destruct (_ <? 0); [apply HR|].
  destruct (l !! _) as [a|] eqn:E; [|apply HR].
  apply Hk. eapply list_elem_of_lookup_2. exact E.
Qed.

Lemma mark_output_loop_outputs node idx :
  preserves (outputs_grow (fun t => t ∈ n_outputs node))
            (mark_output_loop node idx).
Proof.
  induction idx as [|i idx IH]; cbn [mark_output_loop];
    [apply preserves_ret, outputs_grow_refl|].
  apply py_index_bind_preserves; [apply outputs_grow_refl|]. intros t Ht.
  apply preserves_bind; [apply outputs_grow_trans| |intros _].
  { intros w. exists [t]. split; [reflexivity|]. now constructor. }
  apply py_index_bind_preserves; [apply outputs_grow_refl|]. intros t' _.
  apply preserves_bind; [apply outputs_grow_trans| |intros _; exact IH].
  intros w. apply outputs_grow_same. unfold set_dtype.
  destruct (is_constant w t'); reflexivity.
Qed.

Lemma mark_input_loop_outputs node idx :
  preserves (outputs_grow (fun t => t ∈ n_inputs node))
            (mark_input_loop node idx).
Proof.
  induction idx as [|i idx IH]; cbn [mark_input_loop];
    [apply preserves_ret, outputs_grow_refl|].
  apply py_index_bind_preserves; [apply outputs_grow_refl|]. intros t Ht.
  apply preserves_bind; [apply outputs_grow_trans| |intros _; exact IH].
  intros w. exists [t]. split; [reflexivity|]. now constructor.
Qed.

Lemma mark_loop_outputs lNode bMarkOutput bMarkInput ns0 ns lMarkOutput lMarkInput :
  (forall n, n ∈ ns -> n ∈ ns0) ->
  preserves (outputs_grow (markable lNode bMarkOutput bMarkInput ns0))
            (mark_loop lNode bMarkOutput bMarkInput ns lMarkOutput lMarkInput).
Proof.
  revert lMarkOutput lMarkInput.
  induction ns as [|node rest IH]; intros lMarkOutput lMarkInput Hsub;
    cbn [mark_loop]; [apply preserves_ret, outputs_grow_refl|].
  assert (forall n, n ∈ rest -> n ∈ ns0) as Hrest
      by (intros n Hn; apply Hsub; now apply list_elem_of_further).
  destruct (bool_decide (n_name node ∈ lNode)) eqn:Hname; [|now apply IH].
  apply bool_decide_eq_true in Hname.
  assert (node ∈ ns0) as Hnode by apply Hsub, list_elem_of_here.
  apply preserves_bind; [apply outputs_grow_trans| |intros lo].
  { destruct bMarkOutput eqn:Hbo; [|apply preserves_ret, outputs_grow_refl].
    apply preserves_bind; [apply outputs_grow_trans| |].
    - eapply preserves_weaken; [|apply mark_output_loop_outputs].
      intros w w'. apply outputs_grow_weaken. intros t Ht.
      exists node. auto.
    - intros _. apply preserves_ret, outputs_grow_refl. }
  apply preserves_bind; [apply outputs_grow_trans| |intros li; now apply IH].
  destruct bMarkInput eqn:Hbi; [|apply preserves_ret, outputs_grow_refl].
  apply preserves_bind; [apply outputs_grow_trans| |].
  - eapply preserves_weaken; [|apply mark_input_loop_outputs].
    intros w w'. apply outputs_grow_weaken. intros t Ht.
    exists node. auto.
  - intros _. apply preserves_ret, outputs_grow_refl.
Qed.

Lemma mark_tail_outputs (P : tref -> Prop) (v : Z) :
  preserves (outputs_grow P) (graph_cleanup ;;; graph_toposort ;;; ret v).
Proof.
  apply preserves_bind; [apply outputs_grow_trans| |intros _].
  { intros w. now apply outputs_grow_same. }
  apply preserves_bind; [apply outputs_grow_trans| |intros _].
  { intros w. apply outputs_grow_same, graph_toposort_store. }
  apply preserves_ret, outputs_grow_refl.
Qed.

(** X8: the graph outputs after a call are the old ones (none of them when
    [bRemoveOldOutput] is set) followed by tensors that are all outputs, or
    inputs when inputs are marked, of nodes whose name was asked for; this
    also holds for a call that raises. *)
Theorem mark_graph_output_outputs
        (w : World) (lNode : list string) (bMarkOutput bMarkInput : bool)
        (lMarkOutput lMarkInput : option (list Z)) (bRemoveOldOutput : bool) :
  let w' := snd (mark_graph_output lNode bMarkOutput bMarkInput
                                   lMarkOutput lMarkInput bRemoveOldOutput w) in
  exists added,
    outputs (graph w') = kept_outputs bRemoveOldOutput w ++ added /\
    Forall (markable lNode bMarkOutput bMarkInput (nodes (graph w))) added.
Proof.
  intros w'. subst w'. unfold mark_graph_output.
  rewrite mark_graph_output_start.
  set (w0 := mkWorld (tensors w) _).
  unfold bind at 1, get_world at 1.
  change (nodes (graph w0)) with (nodes (graph w)).
  assert (preserves
            (outputs_grow (markable lNode bMarkOutput bMarkInput (nodes (graph w))))
            (mark_loop lNode bMarkOutput bMarkInput (nodes (graph w))
                       lMarkOutput lMarkInput ;;;
             graph_cleanup ;;; graph_toposort ;;; ret (len lNode))) as H.
  { apply preserves_bind; [apply outputs_grow_trans| |intros _].
    - now apply mark_loop_outputs.
    - apply mark_tail_outputs. }
  exact (H w0).
Qed.

(** ** [mark_graph_output] when no node matches *)

Lemma feeds_nil (n : GsNode) : feeds [] n = false.
Proof.
  unfold feeds. induction (n_outputs n) as [|t l IH]; [reflexivity|].
  cbn [existsb]. rewrite IH, orb_false_r.
  apply bool_decide_eq_false_2. intros []%elem_of_nil.
Qed.

Lemma filter_feeds_nil (ns : list GsNode) : List.filter (feeds []) ns = [].
Proof.
  induction ns as [|n ns IH]; [reflexivity|].
  cbn [List.filter]. now rewrite feeds_nil.
Qed.

Lemma used_tensors_nil (fuel : nat) (ns : list GsNode) :
  used_tensors fuel ns [] = [].
Proof.
  induction fuel as [|fuel IH]; [reflexivity|].
  cbn [used_tensors]. now rewrite filter_feeds_nil.
Qed.

(** Without declared outputs the cleanup keeps no node. *)
Lemma cleanup_no_outputs (ns : list GsNode) (ins : list tref) :
  cleanup (mkGraph ns ins []) = mkGraph [] ins [].
Proof.
  unfold cleanup, used_by. cbn [nodes inputs outputs].
  now rewrite used_tensors_nil, filter_feeds_nil.
Qed.

(** X9: when no node of the graph bears one of the names, nothing is
    marked: the graph outputs are the kept ones and every tensor keeps its
    kind, name, element type and shape.  With [bRemoveOldOutput] the call
    then returns [len(lNode)] all the same and leaves a graph without
    outputs and, after the cleanup, without nodes. *)
Theorem mark_graph_output_unmatched
        (w : World) (lNode : list string) (bMarkOutput bMarkInput : bool)
        (lMarkOutput lMarkInput : option (list Z)) (bRemoveOldOutput : bool) :
  Forall (fun m => n_name m ∉ lNode) (nodes (graph w)) ->
  let r := mark_graph_output lNode bMarkOutput bMarkInput
                             lMarkOutput lMarkInput bRemoveOldOutput w in
  tensor_attrs <$> tensors (snd r) = tensor_attrs <$> tensors w /\
  outputs (graph (snd r)) = kept_outputs bRemoveOldOutput w /\
  (bRemoveOldOutput = true ->
   fst r = Ret (len lNode) /\ nodes (graph (snd r)) = []).
Proof.
  intros Hno.
  set (w0 := mkWorld (tensors w)
                     (mkGraph (nodes (graph w)) (inputs (graph w))
                              (kept_outputs bRemoveOldOutput w))).
  assert (mark_graph_output lNode bMarkOutput bMarkInput
                            lMarkOutput lMarkInput bRemoveOldOutput w
          = bind (graph_cleanup ;;; graph_toposort)
                 (fun _ => ret (len lNode)) w0) as Hrun.
  { unfold mark_graph_output. rewrite mark_graph_output_start. fold w0.
    unfold bind at 1, get_world at 1.
    change (nodes (graph w0)) with (nodes (graph w)).
    unfold bind at 1.
    rewrite mark_loop_skip_all by exact Hno. reflexivity. }
  intros r. subst r. rewrite Hrun. clear Hrun.
  destruct (cleanup_toposort_frame w0) as (_ & Ht & _ & Ho).
  destruct (bind_ret_after (graph_cleanup ;;; graph_toposort) (len lNode) w0)
    as [-> ->].
  rewrite Ht, Ho. split; [reflexivity|]. split; [reflexivity|].
  intros ->. unfold bind, graph_cleanup, graph_toposort, w0, kept_outputs.
  cbn [tensors graph fst snd]. rewrite cleanup_no_outputs. cbn. auto.
Qed.

Lemma mark_graph_output_unmatched_witness :
  Forall (fun m => n_name m ∉ ["Conv2"; "Relu2"]) (nodes (graph conv_world)) /\
  let r := mark_graph_output ["Conv2"; "Relu2"] true false None None true
                             conv_world in
  tensor_attrs <$> tensors (snd r) = tensor_attrs <$> tensors conv_world /\
  outputs (graph (snd r)) = kept_outputs true conv_world /\
  (true = true -> fst r = Ret (len ["Conv2"; "Relu2"]) /\
                  nodes (graph (snd r)) = []).
Proof.
  assert (Forall (fun m => n_name m ∉ ["Conv2"; "Relu2"])
                 (nodes (graph conv_world))) as H.
  { repeat constructor; intros Hin;
      repeat (apply elem_of_cons in Hin as [Hin|Hin]; [discriminate|]);
      now apply elem_of_nil in Hin. }
  split; [exact H|].
  apply (mark_graph_output_unmatched conv_world ["Conv2"; "Relu2"]
           true false None None true H).
Defined.

(** ** [mark_graph_output] with several names *)

Lemma mark_step_normal (bMarkOutput bMarkInput : bool) (m1 m2 : M unit)
      (l1 l2 : list Z) (lo li : option (list Z))
      (K : option (list Z) -> option (list Z) -> M unit) (w : World) :
  (forall a b w', K a b w' = K None None w') ->
  (lo1 <- (if bMarkOutput then m1 ;;; ret (Some l1) else ret lo) ;;
   li1 <- (if bMarkInput then m2 ;;; ret (Some l2) else ret li) ;;
   K lo1 li1) w
  = ((if bMarkOutput then m1 else ret tt) ;;;
     (if bMarkInput then m2 else ret tt) ;;;
     K None None) w.
Proof.
  intros HK. destruct bMarkOutput, bMarkInput; unfold bind, ret.
  - destruct (m1 w) as [[[]|e] w1]; [|reflexivity].
    destruct (m2 w1) as [[[]|e] w2]; [apply HK|reflexivity].
  - destruct (m1 w) as [[[]|e] w1]; [apply HK|reflexivity].
  - destruct (m2 w) as [[[]|e] w2]; [apply HK|reflexivity].
  - apply HK.
Qed.

Lemma mark_loop_many lNode bMarkOutput bMarkInput ns lo li (w : World) :
  (1 <? len lNode) = true ->
  mark_loop lNode bMarkOutput bMarkInput ns lo li w
  = mark_loop lNode bMarkOutput bMarkInput ns None None w.
Proof.
  intros Hmany. revert lo li w.
  induction ns as [|node rest IH]; intros lo li w; [reflexivity|].
  cbn [mark_loop]. destruct (bool_decide _); [|apply IH].
  rewrite Hmany, !orb_true_r.
  rewrite (mark_step_normal bMarkOutput bMarkInput _ _ _ _ lo li
             (mark_loop lNode bMarkOutput bMarkInput rest) w)
    by (intros a b w'; apply IH).
  rewrite (mark_step_normal bMarkOutput bMarkInput _ _ _ _ None None
             (mark_loop lNode bMarkOutput bMarkInput rest) w)
    by (intros a b w'; apply IH).
  reflexivity.
Qed.

(** X10: with more than one name the index arguments are not used: the
    call behaves as if both were left out, and every matching node has all
    its outputs (or inputs) marked. *)
Theorem mark_graph_output_indices_ignored
        (w : World) (lNode : list string) (bMarkOutput bMarkInput : bool)
        (lMarkOutput lMarkInput : option (list Z)) (bRemoveOldOutput : bool) :
  1 < len lNode ->
  mark_graph_output lNode bMarkOutput bMarkInput
                    lMarkOutput lMarkInput bRemoveOldOutput w
  = mark_graph_output lNode bMarkOutput bMarkInput
                      None None bRemoveOldOutput w.
Proof.
  intros Hmany%Z.ltb_lt. unfold mark_graph_output.
  unfold bind at 1 6.
  destruct ((if bRemoveOldOutput then set_graph_outputs [] else ret tt) w)
    as [[[]|e] w0]; [|reflexivity].
  unfold bind at 1 5, get_world. unfold bind at 1 4.
  now rewrite (mark_loop_many lNode bMarkOutput bMarkInput _ lMarkOutput
                 lMarkInput w0 Hmany).
Qed.

Lemma mark_graph_output_indices_ignored_witness :
  1 < len ["n"; "m"] /\
  mark_graph_output ["n"; "m"] true true (Some [7]) (Some [-9]) false twin_world
  = mark_graph_output ["n"; "m"] true true None None false twin_world.
Proof.
  split; [reflexivity|].
  apply (mark_graph_output_indices_ignored twin_world ["n"; "m"] true true
           (Some [7]) (Some [-9]) false).
  reflexivity.
Defined.

(** ** [mark_graph_output] on the only node of a name *)

(** X11: on a graph in which exactly one node bears the name, with indices
    that are all in range and no constant among the selected outputs, the
    call appends to the kept outputs the selected outputs of that node (all
    of them without an index list, else the listed positions in the listed
    order, negative positions counting from the end), then its selected
    inputs; the selected outputs become [float32], and apart from that every
    tensor keeps its kind, name, element type and shape.  It returns 1
    unless the library's sort rejects the graph, which it does not when the
    node list is in dependency order. *)
Theorem mark_graph_output_selects
        (w : World) (before after : list GsNode) (node : GsNode) (name : string)
        (bMarkOutput bMarkInput : bool)
        (lMarkOutput lMarkInput : option (list Z)) (bRemoveOldOutput : bool) :
  nodes (graph w) = before ++ node :: after ->
  n_name node = name ->
  Forall (fun m => n_name m <> name) (before ++ after) ->
  (bMarkOutput = true -> selection_ok (n_outputs node) lMarkOutput = true) ->
  (bMarkInput = true -> selection_ok (n_inputs node) lMarkInput = true) ->
  (bMarkOutput = true ->
   variables_only w (selected (n_outputs node) lMarkOutput)) ->
  let so := if bMarkOutput then selected (n_outputs node) lMarkOutput else [] in
  let si := if bMarkInput then selected (n_inputs node) lMarkInput else [] in
  let r := mark_graph_output [name] bMarkOutput bMarkInput
                             lMarkOutput lMarkInput bRemoveOldOutput w in
  (fst r = Ret 1 \/ fst r = Raise GraphCycle) /\
  (ordered (nodes (graph w)) -> fst r = Ret 1) /\
  outputs (graph (snd r)) = kept_outputs bRemoveOldOutput w ++ so ++ si /\
  forall (t : tref) (T : GsTensor),
    tensors w !! t = Some T ->
    exists T', tensors (snd r) !! t = Some T' /\
      tensor_attrs T'
      = tensor_attrs (if decide (t ∈ so) then with_dtype float32 T else T).
Proof.
  intros Hns Hname Hother Hoko Hoki Hv so si r. subst r.
  assert (variables_only w so) as Hv'.
  { subst so. destruct bMarkOutput; [now apply Hv|constructor]. }
  rewrite (mark_graph_output_unique_run w before after node name
             bMarkOutput bMarkInput lMarkOutput lMarkInput bRemoveOldOutput
             Hns Hname Hother Hv').
  assert ((if bMarkOutput then selection_ok (n_outputs node) lMarkOutput else true)
          = true) as ->
      by (destruct bMarkOutput; auto).
  assert ((if bMarkInput then selection_ok (n_inputs node) lMarkInput else true)
          = true) as ->
      by (destruct bMarkInput; auto).
  rewrite !andb_true_r. cbn [andb]. fold so si.
  set (w1 := mkWorld _ _).
  destruct (cleanup_toposort_frame w1) as (Hr & Ht & _ & Ho).
  pose proof (cleanup_toposort_ordered w1) as Hret.
  destruct (bind_ret_after (graph_cleanup ;;; graph_toposort) 1 w1) as [-> ->].
  rewrite Ho. split; [destruct Hr as [-> | ->]; auto|].
  split; [intros Hord; now rewrite Hret|].
  split; [reflexivity|].
  intros t T HT. apply (attrs_lookup _ _ _ _ Ht).
  cbn [w1 tensors]. now apply coerce_all_lookup.
Qed.

Lemma mark_graph_output_selects_witness :
  (nodes (graph conv_world) = [] ++ conv_node :: [relu_node] /\
   n_name conv_node = "Conv" /\
   Forall (fun m => n_name m <> "Conv") ([] ++ [relu_node]) /\
   (true = true -> selection_ok (n_outputs conv_node) (Some [-1]) = true) /\
   (true = true -> selection_ok (n_inputs conv_node) None = true) /\
   (true = true ->
    variables_only conv_world (selected (n_outputs conv_node) (Some [-1])))) /\
  let so := if true then selected (n_outputs conv_node) (Some [-1]) else [] in
  let si := if true then selected (n_inputs conv_node) None else [] in
  let r := mark_graph_output ["Conv"] true true (Some [-1]) None false
                             conv_world in
  (fst r = Ret 1 \/ fst r = Raise GraphCycle) /\
  (ordered (nodes (graph conv_world)) -> fst r = Ret 1) /\
  outputs (graph (snd r)) = kept_outputs false conv_world ++ so ++ si /\
  forall (t : tref) (T : GsTensor),
    tensors conv_world !! t = Some T ->
    exists T', tensors (snd r) !! t = Some T' /\
      tensor_attrs T'
      = tensor_attrs (if decide (t ∈ so) then with_dtype float32 T else T).
Proof.
  assert (Forall (fun m => n_name m <> "Conv") ([] ++ [relu_node])) as H
      by (repeat constructor; discriminate).
  assert (true = true ->
          variables_only conv_world (selected (n_outputs conv_node) (Some [-1])))
    as Hv by (intros _; repeat constructor).
  split; [repeat split; assumption|].
  apply (mark_graph_output_selects conv_world [] [relu_node] conv_node "Conv"
           true true (Some [-1]) None false);
    [reflexivity|reflexivity|exact H|reflexivity|reflexivity|exact Hv].
Defined.

Example mark_graph_output_selects_run :
  let r := mark_graph_output ["Conv"] true true (Some [-1]) None false
                             conv_world in
  fst r = Ret 1 /\
  outputs (graph (snd r)) = [3%nat; 2%nat; 0%nat] /\
  t_dtype <$> tensors (snd r) = [float32; int64; float32; float32].
Proof. vm_compute. repeat split. Qed.

(** X12: on a graph in which exactly one node bears the name, an output
    index out of range makes the call raise [IndexError] after it has
    replaced the outputs of the graph by the kept ones followed by the
    outputs selected before the bad index, none of them a constant, and
    coerced these: the failed call is not undone, and the cleanup has not
    run. *)
Theorem mark_graph_output_partial_failure
        (w : World) (before after : list GsNode) (node : GsNode) (name : string)
        (bMarkInput : bool)
        (lMarkOutput lMarkInput : option (list Z)) (bRemoveOldOutput : bool) :
  nodes (graph w) = before ++ node :: after ->
  n_name node = name ->
  Forall (fun m => n_name m <> name) (before ++ after) ->
  selection_ok (n_outputs node) lMarkOutput = false ->
  variables_only w (selected (n_outputs node) lMarkOutput) ->
  let so := selected (n_outputs node) lMarkOutput in
  let r := mark_graph_output [name] true bMarkInput
                             lMarkOutput lMarkInput bRemoveOldOutput w in
  fst r = Raise IndexError /\
  nodes (graph (snd r)) = nodes (graph w) /\
  outputs (graph (snd r)) = kept_outputs bRemoveOldOutput w ++ so /\
  tensors (snd r) = coerce_all so (tensors w).
Proof.
  intros Hns Hname Hother Hbad Hv so r. subst r.
  rewrite (mark_graph_output_unique_run w before after node name
             true bMarkInput lMarkOutput lMarkInput bRemoveOldOutput
             Hns Hname Hother Hv).
  rewrite Hbad. cbn [andb fst snd tensors graph nodes outputs]. fold so.
  rewrite andb_false_r, app_nil_r. repeat split.
Qed.

Lemma mark_graph_output_partial_failure_witness :
  (nodes (graph conv_world) = [] ++ conv_node :: [relu_node] /\
   n_name conv_node = "Conv" /\
   Forall (fun m => n_name m <> "Conv") ([] ++ [relu_node]) /\
   selection_ok (n_outputs conv_node) (Some [0; 2]) = false /\
   variables_only conv_world (selected (n_outputs conv_node) (Some [0; 2]))) /\
  let so := selected (n_outputs conv_node) (Some [0; 2]) in
  let r := mark_graph_output ["Conv"] true false (Some [0; 2]) None true
                             conv_world in
  fst r = Raise IndexError /\
  nodes (graph (snd r)) = nodes (graph conv_world) /\
  outputs (graph (snd r)) = kept_outputs true conv_world ++ so /\
  tensors (snd r) = coerce_all so (tensors conv_world).
Proof.
  assert (Forall (fun m => n_name m <> "Conv") ([] ++ [relu_node])) as H
      by (repeat constructor; discriminate).
  assert (variables_only conv_world
            (selected (n_outputs conv_node) (Some [0; 2]))) as Hv
      by (repeat constructor).
  split; [repeat split; assumption|].
  apply (mark_graph_output_partial_failure conv_world [] [relu_node]
           conv_node "Conv" false (Some [0; 2]) None true);
    [reflexivity|reflexivity|exact H|reflexivity|exact Hv].
Defined.

(** ** [add_node] followed by [mark_graph_output] *)

(** X13: marking the node that a call has just appended, by its generated
    name, makes the tensors returned by that call the outputs of the graph,
    and all of them [float32], whatever element types were asked for. *)
Theorem add_node_then_mark_graph_output
        (w : World) (node_type : string) (input_list : list tref)
        (attribution : list (string * pyval))
        (datatype_list : dtype_arg) (shape_list : list pyval)
        (prefix suffix : string) (number : Z) :
  args_ok datatype_list shape_list ->
  Forall (fun m => n_name m <> node_name prefix number node_type)
         (nodes (graph w)) ->
  exists result w1,
    add_node node_type input_list attribution datatype_list shape_list
             prefix suffix number w = (Ret (result, number + 1), w1) /\
    let r := mark_graph_output [node_name prefix number node_type]
                               true false None None true w1 in
    (fst r = Ret 1 \/ fst r = Raise GraphCycle) /\
    outputs (graph (snd r)) = result_tensors result /\
    forall t, t ∈ result_tensors result ->
      exists T, tensors (snd r) !! t = Some T /\ t_dtype T = float32.
Proof.
  intros Hok Hfresh.
  destruct (add_node_pointwise node_type input_list attribution datatype_list
              shape_list prefix suffix number w Hok)
    as (w1 & Hrun & Hg & Hnew & _).
  eexists _, w1. split; [exact Hrun|]. rewrite result_tensors_wrap.
  set (outs := seq (length (tensors w)) (length (out_dtypes datatype_list))) in *.
  set (node := mkNode node_type (node_name prefix number node_type) attribution
                      input_list outs) in *.
  assert (forall t, t ∈ outs ->
            exists T, tensors w1 !! t = Some T /\ t_kind T = KVariable) as Hout.
  { intros t [Hge Hlt]%elem_of_seq.
    destruct (lookup_lt_is_Some_2 (out_dtypes datatype_list)
                (t - length (tensors w))%nat) as [d Hd]; [lia|].
    destruct (Hnew _ d Hd) as (T & s & HT & _ & _ & _ & _ & Hk).
    replace (length (tensors w) + (t - length (tensors w)))%nat with t in HT
      by lia.
    eauto. }
  assert (variables_only w1 outs) as Hv.
  { apply Forall_forall. intros t Hin.
    destruct (Hout t Hin) as (T & HT & Hk).
    unfold is_constant. now rewrite HT, Hk. }
  intros r. subst r.
  rewrite (mark_graph_output_unique_run w1 (nodes (graph w)) [] node
             (node_name prefix number node_type) true false None None true)
    by (rewrite ?Hg, ?app_nil_r; auto).
  cbn [selection_ok selected andb n_outputs node kept_outputs app].
  rewrite app_nil_r.
  set (w2 := mkWorld _ _).
  destruct (cleanup_toposort_frame w2) as (Hr & Ht & _ & Ho).
  destruct (bind_ret_after (graph_cleanup ;;; graph_toposort) 1 w2) as [-> ->].
  rewrite Ho. split; [destruct Hr as [-> | ->]; auto|].
  split; [reflexivity|].
  intros t Hin. destruct (Hout t Hin) as (T & HT & _).
  assert (tensors w2 !! t = Some (with_dtype float32 T)) as H2.
  { cbn [w2 tensors]. rewrite (coerce_all_lookup _ _ _ _ HT).
    now rewrite decide_True. }
  destruct (attrs_lookup _ _ _ _ Ht H2) as (T' & HT' & Ha).
  exists T'. split; [exact HT'|].
  unfold tensor_attrs in Ha. now injection Ha as _ _ -> _.
Qed.

Lemma add_node_then_mark_graph_output_witness :
  (args_ok (DtList [int64; int32]) [PyList []; PyList []] /\
   Forall (fun m => n_name m <> node_name "P" 0 "TopK")
          (nodes (graph conv_world))) /\
  exists result w1,
    add_node "TopK" [3%nat] [] (DtList [int64; int32]) [PyList []; PyList []]
             "P" "" 0 conv_world = (Ret (result, 0 + 1), w1) /\
    let r := mark_graph_output [node_name "P" 0 "TopK"]
                               true false None None true w1 in
    (fst r = Ret 1 \/ fst r = Raise GraphCycle) /\
    outputs (graph (snd r)) = result_tensors result /\
    forall t, t ∈ result_tensors result ->
      exists T, tensors (snd r) !! t = Some T /\ t_dtype T = float32.
Proof.
  assert (Forall (fun m => n_name m <> node_name "P" 0 "TopK")
                 (nodes (graph conv_world))) as H
      by (repeat constructor; discriminate).
  split; [split; [reflexivity|exact H]|].
  apply (add_node_then_mark_graph_output conv_world "TopK" [3%nat] []
           (DtList [int64; int32]) [PyList []; PyList []] "P" "" 0 eq_refl H).
Defined.

(** ** The builders *)

(** X14: each of the builders for the half network, the invalid division,
    the redundant reshapes (in both variants), the unknown operators and the
    plugin reshape returns without error and leaves a graph whose node names
    and tensor names have no duplicates, in which the cleanup removes no node
    and every reference is valid, with one node per [add_node] call. *)
Theorem builders_well_built :
  built build_half_mnist_network_onnx 6 ["tensorX"] ["HALF_MNIST-V-5-MaxPool-0"] /\
  built build_invalid_network_onnx 1 ["tensorT0"] ["InvalidModel-V-0-Div-0"] /\
  (forall b_static_batch,
     built (build_redundant_network_onnx b_static_batch) 8 ["inputT0"]
           ["RedundantModel-V-2-Reshape-0"; "RedundantModel-V-7-Reshape-0"]) /\
  built build_unknown_network_onnx 5 ["x"] ["UnknownModel-V-4-Identity-0"] /\
  built build_reshape_network_onnx 1 ["inputT0"; "inputT1"]
        ["ReshapeModel-V-0-MyReshape-0"].
Proof.
  repeat split; try (intros []); vm_compute; repeat split.
Qed.

(** X15: the static and the dynamic variant of the redundant-reshape graph
    have the same nodes, the same declared inputs and outputs and the same
    tensor names and element types; they differ in shapes only, where the
    batch dimension is 7 in one and the symbol [nBS] in the other. *)
Theorem build_redundant_network_onnx_variants :
  let s := snd (build_redundant_network_onnx true empty_world) in
  let d := snd (build_redundant_network_onnx false empty_world) in
  graph s = graph d /\
  t_name <$> tensors s = t_name <$> tensors d /\
  t_dtype <$> tensors s = t_dtype <$> tensors d /\
  t_shape <$> omap (fun t => tensors s !! t) (inputs (graph s) ++ outputs (graph s))
  = [PyList [PyInt 7; PyInt 2; PyInt 3; PyInt 4];
     PyList [PyStr "7*24"]; PyList [PyInt 7; PyInt 2; PyInt 12]] /\
  t_shape <$> omap (fun t => tensors d !! t) (inputs (graph d) ++ outputs (graph d))
  = [PyList [PyStr "nBS"; PyInt 2; PyInt 3; PyInt 4];
     PyList [PyStr "nBS*24"]; PyList [PyStr "nBS"; PyInt 2; PyInt 12]].
Proof. vm_compute. repeat split. Qed.

(** X16: marking the second max-pool of the full MNIST graph cuts it down
    to the half network: the call returns 1 and the six nodes that remain
    have the operation types and attributes of the nodes that the half
    builder creates, in the same order, with the max-pool output as the only
    graph output. *)
Theorem mark_graph_output_cuts_mnist :
  let full := snd (build_mnist_network_onnx empty_world) in
  let half := snd (build_half_mnist_network_onnx empty_world) in
  let r := mark_graph_output ["MNIST-N-5-MaxPool"] true false None None true full in
  fst r = Ret 1 /\
  length (nodes (graph (snd r))) = 6%nat /\
  n_op <$> nodes (graph (snd r)) = n_op <$> nodes (graph half) /\
  n_attrs <$> nodes (graph (snd r)) = n_attrs <$> nodes (graph half) /\
  names_of (snd r) (inputs (graph (snd r))) = names_of half (inputs (graph half)) /\
  names_of (snd r) (outputs (graph (snd r))) = ["MNIST-V-5-MaxPool-0"].
Proof. vm_compute. repeat split. Qed.
